(** * qmandelbrot: the SSE2 escape-time evaluator, the palette mapping and
      the zoom progression of [mandelbrot.cc], embedded and verified.

    Single-precision arithmetic is IEEE 754 binary32 in round-to-nearest-even,
    taken from the Standard Library's executable [SpecFloat] specification
    instantiated at [prec = 24], [emax = 128].  A 128-bit SSE register is a
    record of four lanes; an integer lane is the unsigned value of its 32 bits,
    with the wrap-around of the packed integer instructions written out. *)

From Stdlib Require Import ZArith List Bool Lia QArith Qabs.
From Stdlib Require Import Floats.SpecFloat.
From Stdlib Require Import Permutation.
Import ListNotations.

#[local] Open Scope Z_scope.

(** ** Configuration constants of [mandelbrot.cc] *)

Definition X_RES : Z := 700.
Definition Y_RES : Z := 700.
Definition MAX_ITS : Z := 500.
Definition MAX_DEPTH : Z := 150.

(** ** binary32 *)

Module Float32.

Definition prec : Z := 24.
Definition emax : Z := 128.

(** A [float] of the source.  The well-formed ones satisfy [valid]. *)
Definition float : Type := spec_float.

Definition valid (f : float) : bool := valid_binary prec emax f.

Definition mul : float -> float -> float := SFmul prec emax.
Definition add : float -> float -> float := SFadd prec emax.
Definition sub : float -> float -> float := SFsub prec emax.
Definition div : float -> float -> float := SFdiv prec emax.
Definition ltb : float -> float -> bool := SFltb.
Definition leb : float -> float -> bool := SFleb.

Definition is_nan (f : float) : bool :=
  match f with S754_nan => true | _ => false end.

(** Conversion of an [int] to [float], as the usual arithmetic
    conversions do it: correct rounding of the integer. *)
Definition of_int (z : Z) : float := binary_normalize prec emax z 0 false.

(** A decimal literal without suffix is a [double]: the binary64 value
    nearest to [num / den] (both exact in binary64 for the literals of the
    source). *)
Definition double_literal (num den : Z) : spec_float :=
  SFdiv 53 1024 (binary_normalize 53 1024 num 0 false)
                (binary_normalize 53 1024 den 0 false).

(** A literal with suffix [f] is the binary32 value nearest to
    [num / den] (both exact in binary32 for the literals of the source). *)
Definition float_literal (num den : Z) : float :=
  SFdiv prec emax (of_int num) (of_int den).

(** Initialising a [float] from a [double] rounds once more. *)
Definition of_double (d : spec_float) : float :=
  match d with
  | S754_finite s m e =>
      binary_normalize prec emax (cond_Zopp s (Zpos m)) e s
  | _ => d
  end.

Definition zero : float := S754_zero false.
Definition one : float := float_literal 1 1.
Definition four : float := float_literal 4 1.

(** The rational value of a finite float; [None] for infinities and NaN. *)
Definition to_Q (f : float) : option Q :=
  match f with
  | S754_zero _ => Some 0%Q
  | S754_finite s m e =>
      Some (inject_Z (cond_Zopp s (Zpos m)) * Qpower 2 e)%Q
  | _ => None
  end.

(** A number (not NaN) carrying sign [s]. *)
Definition signed_num (s : bool) (f : float) : Prop :=
  match f with
  | S754_zero s' | S754_infinity s' | S754_finite s' _ _ => s' = s
  | S754_nan => False
  end.

Definition finite (f : float) : bool :=
  match f with
  | S754_zero _ | S754_finite _ _ _ => true
  | _ => false
  end.

End Float32.

Import Float32.

Definition ZOOM_FACTOR : float := of_double (double_literal 107 100).
Definition PX : float := of_double (double_literal (-702295281061) 1000000000000).
Definition PY : float := of_double (double_literal 350220783400 1000000000000).

(** ** SSE registers and the intrinsics used by the source *)

Inductive lane : Type := L0 | L1 | L2 | L3.

Record vec (A : Type) : Type := Vec { v0 : A; v1 : A; v2 : A; v3 : A }.
Arguments Vec {A} _ _ _ _.
Arguments v0 {A} _.
Arguments v1 {A} _.
Arguments v2 {A} _.
Arguments v3 {A} _.

Definition get {A} (v : vec A) (l : lane) : A :=
  match l with L0 => v0 v | L1 => v1 v | L2 => v2 v | L3 => v3 v end.

Definition vmap {A B} (f : A -> B) (a : vec A) : vec B :=
  Vec (f (v0 a)) (f (v1 a)) (f (v2 a)) (f (v3 a)).

Definition vmap2 {A B C} (f : A -> B -> C) (a : vec A) (b : vec B) : vec C :=
  Vec (f (v0 a) (v0 b)) (f (v1 a) (v1 b)) (f (v2 a) (v2 b)) (f (v3 a) (v3 b)).

(** [__m128]: four packed floats; [__m128i]: four packed 32-bit integers,
    each lane the unsigned value of its bit pattern. *)
Definition __m128 : Type := vec float.
Definition __m128i : Type := vec Z.

Definition wrap32 (z : Z) : Z := z mod 2 ^ 32.

(** The value of a lane read as a C [int]. *)
Definition signed32 (z : Z) : Z := if z <? 2 ^ 31 then z else z - 2 ^ 32.

Definition ALL_ONES : Z := 0xFFFFFFFF.

Definition _mm_set1_epi32 (a : Z) : __m128i := Vec (wrap32 a) (wrap32 a) (wrap32 a) (wrap32 a).
Definition _mm_setzero_si128 : __m128i := Vec 0 0 0 0.
Definition _mm_set1_ps (a : float) : __m128 := Vec a a a a.
Definition _mm_setr_ps (a b c d : float) : __m128 := Vec a b c d.

Definition _mm_mul_ps : __m128 -> __m128 -> __m128 := vmap2 mul.
Definition _mm_add_ps : __m128 -> __m128 -> __m128 := vmap2 add.
Definition _mm_sub_ps : __m128 -> __m128 -> __m128 := vmap2 sub.

(** [_mm_cmplt_ps] yields all-ones bits in the lanes where the ordered
    comparison [a < b] holds and zero bits elsewhere.  The source only ever
    reinterprets that result as an integer vector, so the lanes are given
    directly as bit patterns. *)
Definition _mm_cmplt_ps (a b : __m128) : __m128i :=
  vmap2 (fun x y => if ltb x y then ALL_ONES else 0) a b.

Definition _mm_and_si128 : __m128i -> __m128i -> __m128i := vmap2 Z.land.
Definition _mm_xor_si128 : __m128i -> __m128i -> __m128i := vmap2 Z.lxor.
Definition _mm_cmpeq_epi32 : __m128i -> __m128i -> __m128i :=
  vmap2 (fun x y => if x =? y then ALL_ONES else 0).
Definition _mm_add_epi32 : __m128i -> __m128i -> __m128i :=
  vmap2 (fun x y => wrap32 (x + y)).
Definition _mm_sub_epi32 : __m128i -> __m128i -> __m128i :=
  vmap2 (fun x y => wrap32 (x - y)).

(** [_mm_movemask_epi8]: bit [4*i + j] of the result is the most significant
    bit of byte [j] of lane [i]. *)
Definition byte_msbs (x : Z) : Z :=
  Z.b2z (Z.testbit x 7) + 2 * Z.b2z (Z.testbit x 15)
  + 4 * Z.b2z (Z.testbit x 23) + 8 * Z.b2z (Z.testbit x 31).

Definition _mm_movemask_epi8 (a : __m128i) : Z :=
  byte_msbs (v0 a) + 16 * byte_msbs (v1 a)
  + 256 * byte_msbs (v2 a) + 4096 * byte_msbs (v3 a).

Definition MAX_ITERATIONS_4_of (max_its : Z) : __m128i := _mm_set1_epi32 max_its.
Definition MAX_ITERATIONS_4 : __m128i := MAX_ITERATIONS_4_of MAX_ITS.
Definition DIST_LIMIT_4 : __m128 := _mm_set1_ps four.

(** ** [member4] *)

(** The variables of [member4] that are live across the [while] loop. *)
Record loop_state : Type := LoopState {
  iterations4 : __m128i;
  x4 : __m128;
  y4 : __m128;
  x_sq4 : __m128;
  y_sq4 : __m128;
  not_escape4 : __m128i;
  mask : Z
}.

Definition escape_mask (not_escape iterations : __m128i) : Z :=
  let aux4_b := _mm_and_si128 not_escape iterations in
  let aux4_b := _mm_cmpeq_epi32 aux4_b _mm_setzero_si128 in
  _mm_movemask_epi8 aux4_b.

Section Evaluator.

(** The iteration cap; [MAX_ITS] in the source. *)
Variable max_its : Z.

(** The statements of [member4] before the loop. *)
Definition member4_init (cx4 cy4 : __m128) : loop_state :=
  let iterations4 := MAX_ITERATIONS_4_of max_its in
  let x4 := cx4 in
  let y4 := cy4 in
  let x_sq4 := _mm_mul_ps x4 x4 in
  let y_sq4 := _mm_mul_ps y4 y4 in
  let aux4_a := _mm_add_ps x_sq4 y_sq4 in
  let not_escape4 := _mm_cmplt_ps aux4_a DIST_LIMIT_4 in
  LoopState iterations4 x4 y4 x_sq4 y_sq4 not_escape4
            (escape_mask not_escape4 iterations4).

(** One pass through the body of the [while] loop. *)
Definition member4_body (cx4 cy4 : __m128) (s : loop_state) : loop_state :=
  let iterations4 := _mm_add_epi32 (iterations4 s) (not_escape4 s) in
  let y4 := _mm_mul_ps (x4 s) (y4 s) in
  let y4 := _mm_add_ps y4 y4 in
  let y4 := _mm_add_ps y4 cy4 in
  let x4 := _mm_sub_ps (x_sq4 s) (y_sq4 s) in
  let x4 := _mm_add_ps x4 cx4 in
  let x_sq4 := _mm_mul_ps x4 x4 in
  let y_sq4 := _mm_mul_ps y4 y4 in
  let aux4_a := _mm_add_ps x_sq4 y_sq4 in
  let aux4_a := _mm_cmplt_ps aux4_a DIST_LIMIT_4 in
  let not_escape4 := _mm_and_si128 aux4_a (not_escape4 s) in
  LoopState iterations4 x4 y4 x_sq4 y_sq4 not_escape4
            (escape_mask not_escape4 iterations4).

(** [while (mask != 0xFFFF) body], with the number of passes bounded by
    [fuel]; [None] when the bound is hit with the loop still running. *)
Fixpoint member4_loop (fuel : nat) (cx4 cy4 : __m128) (s : loop_state)
  : option loop_state :=
  if mask s =? 0xFFFF then Some s
  else match fuel with
       | O => None
       | S fuel' => member4_loop fuel' cx4 cy4 (member4_body cx4 cy4 s)
       end.

Definition member4_result (s : loop_state) : __m128i :=
  _mm_sub_epi32 (MAX_ITERATIONS_4_of max_its) (iterations4 s).

Definition member4_fuel (fuel : nat) (cx4 cy4 : __m128) : option __m128i :=
  option_map member4_result (member4_loop fuel cx4 cy4 (member4_init cx4 cy4)).

End Evaluator.

(** [member4] of the source, run with room for [MAX_ITS] passes. *)
Definition member4 (cx4 cy4 : __m128) : option __m128i :=
  member4_fuel MAX_ITS (Z.to_nat MAX_ITS) cx4 cy4.

(** ** The scalar recurrence

    Following the spec's words: the escape-time recurrence run on one point,
    starting at [z0 = c], escaping when [x*x + y*y >= 4.0], capped at the
    iteration bound, stopping exactly at escape.  [2xy] is the product added
    to itself. *)

Definition escaped (x y : float) : bool :=
  leb four (add (mul x x) (mul y y)).

Fixpoint scalar_loop (budget : nat) (cx cy x y : float) (n : Z) : Z :=
  match budget with
  | O => n
  | S budget' =>
      if escaped x y then n
      else scalar_loop budget' cx cy
             (add (sub (mul x x) (mul y y)) cx)
             (add (add (mul x y) (mul x y)) cy)
             (n + 1)
  end.

Definition scalar_escape_time (max_its : Z) (cx cy : float) : Z :=
  scalar_loop (Z.to_nat max_its) cx cy cx cy 0.

(** ** The palette *)

Definition pal : list Z := [
    0; 0; 0;
    255; 180; 4;
    240; 156; 4;
    220; 124; 4;
    156; 71; 4;
    72; 20; 4;
    251; 180; 4;
    180; 74; 4;
    180; 70; 4;
    164; 91; 4;
    100; 28; 4;
    191; 82; 4;
    47; 5; 4;
    138; 39; 4;
    81; 27; 4;
    192; 89; 4;
    61; 27; 4;
    216; 148; 4;
    71; 14; 4;
    142; 48; 4;
    196; 102; 4;
    58; 9; 4;
    132; 45; 4;
    95; 15; 4;
    92; 21; 4;
    166; 59; 4;
    244; 178; 4;
    194; 121; 4;
    120; 41; 4;
    53; 14; 4;
    80; 15; 4;
    23; 3; 4;
    249; 204; 4;
    97; 25; 4;
    124; 30; 4;
    151; 57; 4;
    104; 36; 4;
    239; 171; 4;
    131; 57; 4;
    111; 23; 4;
    4; 2; 4;
    255; 180; 4;
    240; 156; 4;
    220; 124; 4;
    156; 71; 4;
    72; 20; 4;
    251; 180; 4;
    180; 74; 4;
    180; 70; 4;
    164; 91; 4;
    100; 28; 4;
    191; 82; 4;
    47; 5; 4;
    138; 39; 4;
    81; 27; 4;
    192; 89; 4;
    61; 27; 4;
    216; 148; 4;
    71; 14; 4;
    142; 48; 4;
    196; 102; 4;
    58; 9; 4;
    132; 45; 4;
    95; 15; 4;
    92; 21; 4
  ].

Definition PAL_SIZE : Z := 40.

(** [pal[index]] for a C [int] index; [None] outside the array. *)
Definition pal_at (index : Z) : option Z :=
  if index <? 0 then None else nth_error pal (Z.to_nat index).

(** The authored ramp: the [PAL_SIZE] colours that follow the black entry. *)
Definition ramp : list Z := firstn (Z.to_nat (3 * PAL_SIZE)) (skipn 3 pal).

Definition ramp_color (i : Z) : option (Z * Z * Z) :=
  match nth_error ramp (Z.to_nat (3 * i)),
        nth_error ramp (Z.to_nat (3 * i + 1)),
        nth_error ramp (Z.to_nat (3 * i + 2)) with
  | Some r, Some g, Some b => Some (r, g, b)
  | _, _, _ => None
  end.

(** ** The renderer: [mandelbrot] *)

(** The view window: the variables of [mandelbrot] that the zoom changes. *)
Record zoom_state : Type := ZoomState {
  delta_x4 : __m128;
  delta_y : float;
  y_offset : float;
  x_offset4 : __m128;
  depth : Z
}.

Definition zoom_multiplier : float := div one ZOOM_FACTOR.
Definition zoom_multiplier4 : __m128 := _mm_set1_ps zoom_multiplier.

Definition delta_x : float := mul (div one (of_int X_RES)) (of_int 4).
Definition center : float := mul (float_literal (-1) 2) four.

Definition x_translate4 : __m128 := _mm_set1_ps PX.
Definition increment4 : __m128i := _mm_set1_epi32 1.
Definition all_ones_mask4 : __m128i := _mm_set1_epi32 0xFFFFFFFF.
Definition mod_mask4 : __m128i := _mm_set1_epi32 0x3F.

(** The state on entry to the frame loop. *)
Definition zoom_init : zoom_state :=
  ZoomState (_mm_set1_ps (mul delta_x (of_int 4)))
            (mul (div one (of_int Y_RES)) four)
            center
            (_mm_setr_ps center (add center delta_x)
                         (add center (mul (of_int 2) delta_x))
                         (add center (mul (of_int 3) delta_x)))
            0.

(** [if (depth < MAX_DEPTH) { depth++; ... }] at the end of a frame. *)
Definition zoom_step (s : zoom_state) : zoom_state :=
  if depth s <? MAX_DEPTH then
    ZoomState (_mm_mul_ps (delta_x4 s) zoom_multiplier4)
              (mul (delta_y s) zoom_multiplier)
              (mul (y_offset s) zoom_multiplier)
              (_mm_mul_ps (x_offset4 s) zoom_multiplier4)
              (depth s + 1)
  else s.

(** The window in force while frame [n] is rendered (frames count from 0). *)
Definition frame_window (n : nat) : zoom_state := Nat.iter n zoom_step zoom_init.

(** From the iteration counts of a batch to its palette indices. *)
Definition color_index4 (iterations4 : __m128i) : __m128i :=
  let max_mask4 := _mm_cmpeq_epi32 iterations4 MAX_ITERATIONS_4 in
  let max_mask4 := _mm_xor_si128 max_mask4 all_ones_mask4 in
  let iterations4 := _mm_and_si128 iterations4 mod_mask4 in
  let iterations4 := _mm_add_epi32 iterations4 increment4 in
  _mm_and_si128 iterations4 max_mask4.

(** [u.color_index[j]]: lane [j] read back through the union as a C [int]. *)
Definition color_index (u : __m128i) (j : lane) : Z := signed32 (get u j).

(** A call of [putpixel]: the coordinates and the colour bytes passed. *)
Record pixel_write : Type := PixelWrite {
  px : Z; py : Z; red : Z; green : Z; blue : Z
}.

(** The three palette bytes read for a colour index. *)
Definition pal_rgb (color_index : Z) : option (Z * Z * Z) :=
  let index := color_index * 3 in
  match pal_at index, pal_at (index + 1), pal_at (index + 2) with
  | Some r, Some g, Some b => Some (r, g, b)
  | _, _, _ => None
  end.

(** The inner [for j] loop on one lane. *)
Definition write_lane (hx hy : Z) (u : __m128i) (j : lane) (jz : Z)
  : option pixel_write :=
  match pal_rgb (color_index u j) with
  | Some (r, g, b) => Some (PixelWrite (hx + jz) hy r g b)
  | None => None
  end.

(** The body of the [for hx] loop: four pixels, or [None] when the
    evaluator does not return or a palette read leaves the array. *)
Definition render_batch (hx hy : Z) (x4 y4 : __m128)
  : option (list pixel_write) :=
  match member4 x4 y4 with
  | None => None
  | Some iterations4 =>
      let u := color_index4 iterations4 in
      match write_lane hx hy u L0 0, write_lane hx hy u L1 1,
            write_lane hx hy u L2 2, write_lane hx hy u L3 3 with
      | Some a, Some b, Some c, Some d => Some [a; b; c; d]
      | _, _, _, _ => None
      end
  end.

(** [x4] on entry to batch number [b] of a row: [b] additions of
    [delta_x4] to the translated offsets. *)
Fixpoint row_x4 (w : zoom_state) (b : nat) : __m128 :=
  match b with
  | O => _mm_add_ps x_translate4 (x_offset4 w)
  | S b' => _mm_add_ps (row_x4 w b') (delta_x4 w)
  end.

(** [y4] of row [hy]. *)
Definition row_y4 (w : zoom_state) (hy : Z) : __m128 :=
  let y_base := add PY (y_offset w) in
  _mm_set1_ps (add y_base (mul (of_int hy) (delta_y w))).

(** The pixel writes of row [hy], batch by batch. *)
Definition render_row (w : zoom_state) (hy : Z)
  : list (option (list pixel_write)) :=
  map (fun b => render_batch (4 * Z.of_nat b) hy (row_x4 w b) (row_y4 w hy))
      (seq 0 (Z.to_nat (X_RES / 4))).

(** The rows of one frame; they are independent of one another. *)
Definition render_frame (w : zoom_state)
  : list (list (option (list pixel_write))) :=
  map (fun hy => render_row w (Z.of_nat hy)) (seq 0 (Z.to_nat Y_RES)).

(** The iteration counts of batch [b] of row [hy] of a frame. *)
Definition batch_iterations (w : zoom_state) (b : nat) (hy : Z)
  : option __m128i :=
  member4 (row_x4 w b) (row_y4 w hy).

(** ** One lane of the SIMD loop *)

(** The components of the loop state that belong to one lane. *)
Record lane_state : Type := LaneState {
  l_it : Z; l_x : float; l_y : float; l_xsq : float; l_ysq : float; l_ne : Z
}.

Definition lane_of (s : loop_state) (l : lane) : lane_state :=
  LaneState (get (iterations4 s) l) (get (x4 s) l) (get (y4 s) l)
            (get (x_sq4 s) l) (get (y_sq4 s) l) (get (not_escape4 s) l).

(** The continuation test of the source on one lane: [x*x + y*y < 4.0]. *)
Definition below (x y : float) : bool := ltb (add (mul x x) (mul y y)) four.

Definition next_x (cx x y : float) : float := add (sub (mul x x) (mul y y)) cx.
Definition next_y (cy x y : float) : float := add (add (mul x y) (mul x y)) cy.

(** What one pass of the loop body does to a lane. *)
Definition lane_body (cx cy : float) (L : lane_state) : lane_state :=
  let y := add (add (mul (l_x L) (l_y L)) (mul (l_x L) (l_y L))) cy in
  let x := add (sub (l_xsq L) (l_ysq L)) cx in
  LaneState (wrap32 (l_it L + l_ne L)) x y (mul x x) (mul y y)
            (Z.land (if ltb (add (mul x x) (mul y y)) four then ALL_ONES else 0)
                    (l_ne L)).

(** A lane no longer keeps the joint loop running. *)
Definition lane_done (L : lane_state) : bool := Z.land (l_ne L) (l_it L) =? 0.

(** The count the loop produces for one lane, read off the lane's own
    orbit: the number of passes before the continuation test first fails,
    capped at [budget]. *)
Fixpoint lane_count (budget : nat) (cx cy x y : float) (n : Z) : Z :=
  match budget with
  | O => n
  | S budget' =>
      if below x y
      then lane_count budget' cx cy (next_x cx x y) (next_y cy x y) (n + 1)
      else n
  end.

(** ** Running the joint loop *)

(** The loop state after [m] passes through the body. *)
Definition passes (cx4 cy4 : __m128) (m : nat) (s : loop_state) : loop_state :=
  Nat.iter m (member4_body cx4 cy4) s.

(** The loop started in [s] leaves after exactly [n] passes, in state [s']:
    the exit test fails before each of the [n] passes and holds after the
    last. *)
Definition exits_after (cx4 cy4 : __m128) (s : loop_state) (n : nat)
                       (s' : loop_state) : Prop :=
  s' = passes cx4 cy4 n s /\
  mask s' = 0xFFFF /\
  forall m, (m < n)%nat -> mask (passes cx4 cy4 m s) <> 0xFFFF.

(** ** The invariant of the joint loop *)

Section Invariant.

Variable max_its : Z.

(** A lane with [b] passes of budget left and final count [r]: either it
    has escaped and its counter is frozen at [max_its - r], or it is still
    inside the limit, its counter is the common budget [b], and [r] is what
    its orbit yields from here. *)
Inductive lane_inv (cx cy : float) (b : nat) (r : Z) (L : lane_state) : Prop :=
| lane_frozen :
    l_ne L = 0 -> 0 <= l_it L <= max_its -> r = max_its - l_it L ->
    lane_inv cx cy b r L
| lane_running :
    l_ne L = ALL_ONES -> l_it L = Z.of_nat b ->
    l_xsq L = mul (l_x L) (l_x L) -> l_ysq L = mul (l_y L) (l_y L) ->
    below (l_x L) (l_y L) = true ->
    r = lane_count b cx cy (l_x L) (l_y L) (max_its - Z.of_nat b) ->
    lane_inv cx cy b r L.

Variables cx4 cy4 : __m128.

(** The loop state as a whole, with [b] passes of budget left. *)
Definition state_inv (b : nat) (r4 : __m128i) (s : loop_state) : Prop :=
  mask s = escape_mask (not_escape4 s) (iterations4 s) /\
  forall l, lane_inv (get cx4 l) (get cy4 l) b (get r4 l) (lane_of s l).

(** The counts of the whole batch, lane by lane. *)
Definition lane_counts : __m128i :=
  vmap2 (fun cx cy => lane_count (Z.to_nat max_its) cx cy cx cy 0) cx4 cy4.

End Invariant.

(** ** Inputs used in the examples *)

Definition minus_one : float := of_int (-1).
Definition two : float := of_int 2.

(** A batch used to exercise the statements below: [-1], [0.3 + 0.5i],
    [-0.75 + 0.1i] and [0.25 + 0.5i]. *)
Definition sample_cx4 : __m128 :=
  _mm_setr_ps minus_one (of_double (double_literal 3 10))
              (of_double (double_literal (-3) 4)) (of_double (double_literal 1 4)).
Definition sample_cy4 : __m128 :=
  _mm_setr_ps zero (of_double (double_literal 1 2))
              (of_double (double_literal 1 10)) (of_double (double_literal 1 2)).

(** ** The palette index and the colours, lane by lane *)

(** What [color_index4] does to one lane. *)
Definition lane_color (k : Z) : Z :=
  Z.land (wrap32 (Z.land k 0x3F + 1))
         (Z.lxor (if k =? MAX_ITS then ALL_ONES else 0) ALL_ONES).

(** The colour the renderer writes for a count [k] below the cap. *)
Definition color_written (k : Z) : option (Z * Z * Z) :=
  pal_rgb (color_index (color_index4 (_mm_set1_epi32 k)) L0).

Definition is_some {A} (o : option A) : bool :=
  match o with Some _ => true | None => false end.

(** ** The zoom, measured *)

(** The per-axis deltas and offsets of a window: the four lanes of
    [delta_x4], [delta_y], [y_offset] and the four lanes of [x_offset4]. *)
Definition zoom_components (w : zoom_state) : list float :=
  [v0 (delta_x4 w); v1 (delta_x4 w); v2 (delta_x4 w); v3 (delta_x4 w);
   delta_y w; y_offset w;
   v0 (x_offset4 w); v1 (x_offset4 w); v2 (x_offset4 w); v3 (x_offset4 w)].

(** The tolerance: one part in [2^23], the spacing of binary32 numbers
    relative to their size. *)
Definition zoom_tolerance : Q := (1 # 8388608)%Q.

(** [new] is [old / ZOOM_FACTOR] up to the tolerance, relative to the
    exact quotient; all three values finite. *)
Definition near_quotient (new old : float) : bool :=
  match to_Q new, to_Q old, to_Q ZOOM_FACTOR with
  | Some a, Some b, Some z =>
      Qle_bool (Qabs (a - b / z)) (zoom_tolerance * Qabs (b / z))
  | _, _, _ => false
  end.

Fixpoint all_near (news olds : list float) : bool :=
  match news, olds with
  | [], [] => true
  | a :: news', b :: olds' => near_quotient a b && all_near news' olds'
  | _, _ => false
  end.

(** ** The orbit of a point *)

(** [z0 = c], [z(n+1) = z(n)^2 + c], in the operations and the order of
    the loop body. *)
Fixpoint orbit (n : nat) (cx cy : float) : float * float :=
  match n with
  | O => (cx, cy)
  | S n' => let '(x, y) := orbit n' cx cy in (next_x cx x y, next_y cy x y)
  end.

(** The continuation test at step [n] of the orbit. *)
Definition inside (n : nat) (cx cy : float) : bool :=
  below (fst (orbit n cx cy)) (snd (orbit n cx cy)).

(** ** [putpixel] and the surface *)

(** What [putpixel] uses of an [SDL_Surface]: the length of a line in
    bytes and the pixel buffer, seen as the array of 32-bit words the
    function casts it to. *)
Record SDL_Surface : Type := Surface { pitch : Z; pixels : list Z }.

(** A computation in [int]. *)
Definition int_of (z : Z) : Z := signed32 (wrap32 z).

(** [(r << 16) + (g << 8) + b], computed in [int] and stored as a
    [uint32_t]. *)
Definition pixel_word (r g b : Z) : Z :=
  wrap32 (int_of (int_of (Z.shiftl r 16) + int_of (Z.shiftl g 8)) + b).

(** [l[i] = v]; the list's length never changes. *)
Fixpoint set_at (i : nat) (v : Z) (l : list Z) : list Z :=
  match l, i with
  | [], _ => []
  | _ :: t, O => v :: t
  | h :: t, S i' => h :: set_at i' v t
  end.

(** The index into [pix_buf] that [putpixel] writes for [(x, y)]. *)
Definition pixel_cell (surface : SDL_Surface) (x y : Z) : Z :=
  let line_offset := int_of (y * Z.shiftr (pitch surface) 2) in
  int_of (line_offset + x).

(** [putpixel]; [None] when the store falls outside the buffer. *)
Definition putpixel (surface : SDL_Surface) (x y r g b : Z)
  : option SDL_Surface :=
  let pixel := pixel_word r g b in
  let i := pixel_cell surface x y in
  if (0 <=? i) && (i <? Z.of_nat (length (pixels surface)))
  then Some (Surface (pitch surface)
                     (set_at (Z.to_nat i) pixel (pixels surface)))
  else None.

(** The three colour bytes of a stored word. *)
Definition word_rgb (w : Z) : Z * Z * Z :=
  (Z.land (Z.shiftr w 16) 0xFF, Z.land (Z.shiftr w 8) 0xFF, Z.land w 0xFF).

(** Equality of two colours that were both read. *)
Definition rgb_eqb (a b : option (Z * Z * Z)) : bool :=
  match a, b with
  | Some (r, g, b), Some (r', g', b') => (r =? r') && (g =? g') && (b =? b')
  | _, _ => false
  end.

(** ** The frame on the surface *)

(** One call of [putpixel], made. *)
Definition do_write (s : SDL_Surface) (p : pixel_write) : option SDL_Surface :=
  putpixel s (px p) (py p) (red p) (green p) (blue p).

(** A sequence of calls, in order. *)
Fixpoint do_writes (ps : list pixel_write) (s : SDL_Surface)
  : option SDL_Surface :=
  match ps with
  | [] => Some s
  | p :: ps' =>
      match do_write s p with
      | Some s' => do_writes ps' s'
      | None => None
      end
  end.

(** The calls of a run of batches, one after the other; [None] as soon as
    one batch has none. *)
Fixpoint gather {A} (l : list (option (list A))) : option (list A) :=
  match l with
  | [] => Some []
  | None :: _ => None
  | Some a :: l' => option_map (app a) (gather l')
  end.

(** The [putpixel] calls of row [hy], left to right. *)
Definition row_writes (w : zoom_state) (hy : Z) : option (list pixel_write) :=
  gather (render_row w hy).

(** The [putpixel] calls of a frame, rows in index order. *)
Definition frame_writes (w : zoom_state) : option (list pixel_write) :=
  gather (map gather (render_frame w)).

Definition lane_of_Z (j : Z) : lane :=
  if j =? 0 then L0 else if j =? 1 then L1 else if j =? 2 then L2 else L3.

(** The colour of pixel [(x, y)] of a frame: the palette entry for the
    count of lane [x mod 4] of batch [x / 4] of row [y]. *)
Definition pixel_rgb (w : zoom_state) (x y : Z) : option (Z * Z * Z) :=
  match batch_iterations w (Z.to_nat (x / 4)) y with
  | Some r => pal_rgb (color_index (color_index4 r) (lane_of_Z (x mod 4)))
  | None => None
  end.

(** A call carries the colour of the pixel it addresses. *)
Definition carries_own_color (w : zoom_state) (p : pixel_write) : Prop :=
  pixel_rgb w (px p) (py p) = Some (red p, green p, blue p).

Definition position (p : pixel_write) : Z * Z := (px p, py p).

(** The word a call stores and the cell it stores it in. *)
Definition write_word (p : pixel_write) : Z :=
  pixel_word (red p) (green p) (blue p).
Definition write_cell (s : SDL_Surface) (p : pixel_write) : Z :=
  pixel_cell s (px p) (py p).

(** The call made for pixel [(x, y)] with colour [c]. *)
Definition write_of (x y : Z) (c : Z * Z * Z) : pixel_write :=
  let '(r, g, b) := c in PixelWrite x y r g b.

(** The pixels of the viewport, row by row, each row left to right. *)
Definition viewport : list (Z * Z) :=
  flat_map (fun y => map (fun x => (Z.of_nat x, Z.of_nat y))
                         (seq 0 (Z.to_nat X_RES)))
           (seq 0 (Z.to_nat Y_RES)).

(** The cell of the pixel at a position. *)
Definition position_cell (s : SDL_Surface) (xy : Z * Z) : Z :=
  pixel_cell s (fst xy) (snd xy).

(** A surface the viewport fits in: lines of at least [X_RES] words, at
    least [Y_RES] of them, and a buffer a C [int] can index. *)
Definition holds_viewport (s : SDL_Surface) : Prop :=
  X_RES <= Z.shiftr (pitch s) 2 /\
  Y_RES * Z.shiftr (pitch s) 2 <= Z.of_nat (length (pixels s)) /\
  Z.of_nat (length (pixels s)) < 2 ^ 31.

(** A surface of three lines of four 32-bit pixels, all zero. *)
Definition small_surface : SDL_Surface :=
  Surface 16 [0; 0; 0; 0; 0; 0; 0; 0; 0; 0; 0; 0].

(** A 700 x 700 surface of 32-bit pixels, all zero, with no padding at
    the end of a line. *)
Definition sample_surface : SDL_Surface :=
  Surface (4 * X_RES) (repeat 0 (Z.to_nat (Y_RES * X_RES))).

(** ** The points of a frame *)

Definition lanes {A} (v : vec A) : list A := [v0 v; v1 v; v2 v; v3 v].

(** The real coordinates of the pixels of a row, left to right. *)
Definition row_xs (w : zoom_state) : list float :=
  flat_map (fun b => lanes (row_x4 w b)) (seq 0 (Z.to_nat (X_RES / 4))).

(** The imaginary coordinates of the rows, top to bottom. *)
Definition col_ys (w : zoom_state) : list float :=
  map (fun hy => v0 (row_y4 w (Z.of_nat hy))) (seq 0 (Z.to_nat Y_RES)).

(** The lanes of [n] successive batches, [x4] stepping by [delta_x4] as
    in the [for hx] loop. *)
Fixpoint xs_from (w : zoom_state) (n : nat) (x4 : __m128) : list float :=
  match n with
  | O => []
  | S n' => lanes x4 ++ xs_from w n' (_mm_add_ps x4 (delta_x4 w))
  end.

(** Each element is a finite number strictly below the next. *)
Fixpoint increasing (l : list float) : bool :=
  match l with
  | a :: ((b :: _) as t) => finite a && ltb a b && increasing t
  | [a] => finite a
  | [] => true
  end.

(** ** The frame loop *)

(** The type of an event, as far as the loop tells types apart. *)
Inductive event_type : Type := SDL_QUIT | other_event.

(** The frame loop of [mandelbrot]: [while (!quit)] render with the
    current window, zoom, poll once.  [polls n] is what [SDL_PollEvent]
    hands over at the end of frame [n]: nothing, or an event's type.  The
    result lists the windows the frames were rendered with and gives the
    window left at the end; [None] when the bound on the frames is hit. *)
Fixpoint frame_loop (fuel : nat) (polls : nat -> option event_type)
         (frame : nat) (w : zoom_state)
  : option (list zoom_state * zoom_state) :=
  match fuel with
  | O => None
  | S fuel' =>
      let w' := zoom_step w in
      let quit := match polls frame with Some SDL_QUIT => true | _ => false end in
      if quit then Some ([w], w')
      else match frame_loop fuel' polls (S frame) w' with
           | Some (ws, w_end) => Some (w :: ws, w_end)
           | None => None
           end
  end.

(** Polls that bring two other events, an empty queue, then the quit. *)
Definition sample_polls (n : nat) : option event_type :=
  match n with
  | 0%nat | 1%nat => Some other_event
  | 2%nat => None
  | 3%nat => Some SDL_QUIT
  | _ => None
  end.

(** Two floats are the same datum. *)
Definition float_eqb (a b : float) : bool :=
  match a, b with
  | S754_zero s, S754_zero t => Bool.eqb s t
  | S754_infinity s, S754_infinity t => Bool.eqb s t
  | S754_nan, S754_nan => true
  | S754_finite s m e, S754_finite t n f =>
      Bool.eqb s t && Pos.eqb m n && Z.eqb e f
  | _, _ => false
  end.

(** The step between the pixels of a row equals the step between rows,
    and the row starts as far left of the centre as the frame starts above
    it: [delta_x4 = 4 * delta_y] in every lane and
    [x_offset4[0] = y_offset]. *)
Definition square_pixels (w : zoom_state) : bool :=
  forallb (fun d => float_eqb d (mul four (delta_y w))) (lanes (delta_x4 w))
  && float_eqb (v0 (x_offset4 w)) (y_offset w).

(** ** The mirror image of a point *)

Definition is_zero (f : float) : bool :=
  match f with S754_zero _ => true | _ => false end.

(** [y'] is [y] with the sign changed, the sign of a zero left open. *)
Definition mirrored (y y' : float) : Prop :=
  y' = SFopp y \/ (is_zero y = true /\ is_zero y' = true).

(** * Properties *)

(** ** Facts about binary32 arithmetic *)

Module Float32Facts.

Lemma shr_1_nonneg mrs : 0 <= shr_m mrs -> 0 <= shr_m (shr_1 mrs).
Proof.
  destruct mrs as [m r s]; simpl.
  destruct m as [|p|p]; [ | destruct p | destruct p]; simpl; lia.
Qed.

Lemma iter_shr_1_nonneg p :
  forall mrs, 0 <= shr_m mrs -> 0 <= shr_m (iter_pos shr_1 p mrs).
Proof.
  induction p as [p IH|p IH|]; intros mrs H; simpl.
  - apply IH, IH, shr_1_nonneg, H.
  - apply IH, IH, H.
  - apply shr_1_nonneg, H.
Qed.

Lemma shr_nonneg mrs e n : 0 <= shr_m mrs -> 0 <= shr_m (fst (shr mrs e n)).
Proof.
  intros H; unfold shr; destruct n; simpl; auto using iter_shr_1_nonneg.
Qed.

Lemma shr_fexp_nonneg p e m ex l :
  0 <= m -> 0 <= shr_m (fst (shr_fexp p e m ex l)).
Proof.
  intros H; unfold shr_fexp; apply shr_nonneg.
  destruct l as [|[ | | ]]; simpl; exact H.
Qed.

Lemma round_nearest_even_nonneg m l : 0 <= m -> 0 <= round_nearest_even m l.
Proof.
  intros H; unfold round_nearest_even.
  destruct l as [|[ | | ]]; try destruct (Z.even m); lia.
Qed.

(** Rounding a non-negative mantissa never yields NaN and keeps the sign. *)
Lemma binary_round_aux_signed p e s m ex l :
  0 <= m -> signed_num s (binary_round_aux p e s m ex l).
Proof.
  intros H; unfold binary_round_aux.
  pose proof (shr_fexp_nonneg p e m ex l H) as H1.
  destruct (shr_fexp p e m ex l) as [mrs' e'] eqn:E1; simpl in H1.
  pose proof (shr_fexp_nonneg p e _ e' loc_Exact
                (round_nearest_even_nonneg _ (loc_of_shr_record mrs') H1)) as H2.
  destruct (shr_fexp p e (round_nearest_even _ _) e' loc_Exact)
    as [mrs'' e''] eqn:E2; simpl in H2.
  destruct (shr_m mrs'') as [|q|q]; simpl; auto; try lia.
  destruct (e'' <=? e - p); simpl; auto.
Qed.

Lemma binary_round_signed p e s m ex : signed_num s (binary_round p e s m ex).
Proof.
  unfold binary_round.
  destruct (shl_align m ex _) as [mz ez].
  apply binary_round_aux_signed; lia.
Qed.

Lemma binary_normalize_not_nan p e m ex sz :
  is_nan (binary_normalize p e m ex sz) = false.
Proof.
  destruct m as [|q|q]; simpl; auto.
  - pose proof (binary_round_signed p e false q ex) as H.
    destruct (binary_round p e false q ex); simpl in *; auto; contradiction.
  - pose proof (binary_round_signed p e true q ex) as H.
    destruct (binary_round p e true q ex); simpl in *; auto; contradiction.
Qed.

Lemma signed_num_not_nan s f : signed_num s f -> is_nan f = false.
Proof. destruct f; simpl; auto; contradiction. Qed.

(** A square of a number is a non-negative number. *)
Lemma mul_self_signed x : is_nan x = false -> signed_num false (mul x x).
Proof.
  destruct x as [s|s| |s m e]; simpl; intros H; try discriminate;
    try (destruct s; reflexivity).
  unfold mul, SFmul.
  replace (xorb s s) with false by (destruct s; reflexivity).
  apply binary_round_aux_signed; lia.
Qed.

Lemma mul_self_finite x : finite (mul x x) = true -> finite x = true.
Proof. destruct x as [s|s| |s m e]; simpl; auto. Qed.

Lemma mul_finite_not_nan x y :
  finite x = true -> finite y = true -> is_nan (mul x y) = false.
Proof.
  destruct x as [s|s| |s m e]; destruct y as [t|t| |t n f];
    simpl; intros; try discriminate; auto.
  eapply signed_num_not_nan. unfold mul, SFmul.
  apply binary_round_aux_signed; lia.
Qed.

Lemma add_self_not_nan x : is_nan x = false -> is_nan (add x x) = false.
Proof.
  destruct x as [s|s| |s m e]; simpl; intros; try discriminate;
    try (destruct s; reflexivity).
  apply binary_normalize_not_nan.
Qed.

Lemma add_finite_not_nan x y :
  is_nan x = false -> finite y = true -> is_nan (add x y) = false.
Proof.
  destruct x as [s|s| |s m e]; destruct y as [t|t| |t n f];
    simpl; intros; try discriminate; auto;
    try (destruct s, t; reflexivity).
  apply binary_normalize_not_nan.
Qed.

Lemma sub_finite_not_nan x y :
  finite x = true -> finite y = true -> is_nan (sub x y) = false.
Proof.
  destruct x as [s|s| |s m e]; destruct y as [t|t| |t n f];
    simpl; intros; try discriminate; auto;
    try (destruct s, t; reflexivity).
  apply binary_normalize_not_nan.
Qed.

(** The sum of two non-negative numbers is a number. *)
Lemma add_signed_not_nan a b :
  signed_num false a -> signed_num false b -> is_nan (add a b) = false.
Proof.
  destruct a as [s|s| |s m e]; destruct b as [t|t| |t n f];
    simpl; intros; subst; try contradiction; auto.
  apply binary_normalize_not_nan.
Qed.

Lemma four_eq : four = S754_finite false 8388608 (-21).
Proof. reflexivity. Qed.

(** Below a finite positive limit, both squares are finite. *)
Lemma add_lt_finite a b m e :
  signed_num false a -> signed_num false b ->
  ltb (add a b) (S754_finite false m e) = true ->
  finite a = true /\ finite b = true.
Proof.
  destruct a as [s|s| |s ma ea]; destruct b as [t|t| |t mb eb];
    simpl; intros; subst; try contradiction; auto; discriminate.
Qed.

Lemma add_lt_four_finite a b :
  signed_num false a -> signed_num false b ->
  ltb (add a b) four = true -> finite a = true /\ finite b = true.
Proof. rewrite four_eq. apply add_lt_finite. Qed.

(** For a number [s] and a finite positive limit, [not (s < limit)] and
    [s >= limit] are the same test. *)
Lemma ge_iff_not_lt s m4 e4 :
  is_nan s = false ->
  leb (S754_finite false m4 e4) s = negb (ltb s (S754_finite false m4 e4)).
Proof.
  unfold leb, ltb, SFleb, SFltb.
  destruct s as [t|t| |t m e]; simpl; intros H; try discriminate;
    try (destruct t; reflexivity).
  destruct t; simpl; auto.
  rewrite (Z.compare_antisym e e4).
  destruct (e ?= e4) eqn:E; simpl; auto.
  pose proof (Pos.compare_cont_antisym m m4 Eq) as A; simpl in A.
  rewrite <- A.
  destruct (Pos.compare_cont Eq m m4); reflexivity.
Qed.

Lemma ge_four_iff_not_lt s :
  is_nan s = false -> leb four s = negb (ltb s four).
Proof. rewrite four_eq. apply ge_iff_not_lt. Qed.

Lemma leb_nan_r f : leb f S754_nan = false.
Proof. destruct f; reflexivity. Qed.

Lemma ge_four_not_lt s : leb four s = true -> ltb s four = false.
Proof.
  intros H. destruct (is_nan s) eqn:E.
  - destruct s; discriminate.
  - rewrite ge_four_iff_not_lt in H by exact E.
    destruct (ltb s four); auto; discriminate.
Qed.

End Float32Facts.

Import Float32Facts.

Lemma lane_of_body cx4 cy4 s l :
  lane_of (member4_body cx4 cy4 s) l
  = lane_body (get cx4 l) (get cy4 l) (lane_of s l).
Proof. destruct l; reflexivity. Qed.

Lemma byte_msbs_ones : byte_msbs ALL_ONES = 15.
Proof. reflexivity. Qed.

Lemma byte_msbs_zero : byte_msbs 0 = 0.
Proof. reflexivity. Qed.

(** The loop's exit test [mask == 0xFFFF] holds exactly when every lane is
    done. *)
Lemma escape_mask_done s :
  mask s = escape_mask (not_escape4 s) (iterations4 s) ->
  (mask s =? 0xFFFF) = true <-> forall l, lane_done (lane_of s l) = true.
Proof.
  intros ->. unfold escape_mask, _mm_movemask_epi8, _mm_cmpeq_epi32,
    _mm_and_si128, _mm_setzero_si128, vmap2, lane_done, lane_of; cbn [v0 v1 v2 v3 l_ne l_it].
  destruct (not_escape4 s) as [n0 n1 n2 n3], (iterations4 s) as [i0 i1 i2 i3];
    cbn [v0 v1 v2 v3 get].
  split.
  - intros H l.
    destruct (Z.land n0 i0 =? 0) eqn:E0, (Z.land n1 i1 =? 0) eqn:E1,
             (Z.land n2 i2 =? 0) eqn:E2, (Z.land n3 i3 =? 0) eqn:E3;
      rewrite ?byte_msbs_ones, ?byte_msbs_zero in H; try discriminate H;
      destruct l; cbn [get v0 v1 v2 v3]; assumption.
  - intros H.
    pose proof (H L0) as H0; pose proof (H L1) as H1;
      pose proof (H L2) as H2; pose proof (H L3) as H3.
    cbn [get v0 v1 v2 v3] in H0, H1, H2, H3.
    rewrite H0, H1, H2, H3, byte_msbs_ones. reflexivity.
Qed.

(** ** Arithmetic on 32-bit lanes *)

Lemma wrap32_small z : 0 <= z < 2 ^ 32 -> wrap32 z = z.
Proof. intros H; unfold wrap32; apply Z.mod_small; exact H. Qed.

Lemma wrap32_decrement z : 0 < z < 2 ^ 32 -> wrap32 (z + ALL_ONES) = z - 1.
Proof.
  intros H; unfold wrap32, ALL_ONES.
  replace (z + 0xFFFFFFFF) with (z - 1 + 1 * 2 ^ 32) by (change (2 ^ 32) with 4294967296; lia).
  rewrite Z.mod_add by (change (2 ^ 32) with 4294967296; lia).
  apply Z.mod_small; lia.
Qed.

Lemma land_all_ones z : 0 <= z < 2 ^ 32 -> Z.land ALL_ONES z = z.
Proof.
  intros H. rewrite Z.land_comm. change ALL_ONES with (Z.ones 32).
  rewrite Z.land_ones by lia. apply Z.mod_small; exact H.
Qed.

Lemma signed32_small z : 0 <= z < 2 ^ 31 -> signed32 z = z.
Proof.
  intros H; unfold signed32.
  destruct (Z.ltb_spec z (2 ^ 31)); [reflexivity | lia].
Qed.

Lemma get_member4_result max_its s l :
  get (member4_result max_its s) l
  = wrap32 (wrap32 max_its - get (iterations4 s) l).
Proof. destruct l; reflexivity. Qed.

(** ** The loop body keeps the invariant *)

Section LoopInvariant.

Variable max_its : Z.
Hypothesis max_its_int : 0 <= max_its < 2 ^ 31.

Variables cx4 cy4 : __m128.

Let pow31_lt : 2 ^ 31 < 2 ^ 32.
Proof. reflexivity. Qed.

Lemma lane_inv_range cx cy b r L :
  Z.of_nat b <= max_its -> lane_inv max_its cx cy b r L -> 0 <= l_it L <= max_its.
Proof. intros Hb [? ? ?|? Hit ? ? ? ?]; [assumption | rewrite Hit; lia]. Qed.

Lemma lane_inv_done cx cy b r L :
  Z.of_nat b <= max_its -> lane_inv max_its cx cy b r L ->
  lane_done L = true -> r = max_its - l_it L.
Proof.
  intros Hb [? ? ?|Hne Hit ? ? ? Hr] Hd; [assumption|].
  unfold lane_done in Hd. rewrite Hne, land_all_ones in Hd by (rewrite Hit; lia).
  apply Z.eqb_eq in Hd. rewrite Hit in Hd.
  assert (b = O) by lia; subst b. rewrite Hr, Hit. reflexivity.
Qed.

Lemma lane_inv_exhausted cx cy r L : lane_inv max_its cx cy 0 r L -> lane_done L = true.
Proof.
  intros [Hne ? ?|Hne Hit ? ? ? ?]; unfold lane_done; rewrite Hne.
  - reflexivity.
  - rewrite Hit. reflexivity.
Qed.

Lemma lane_count_stop b cx cy x y n :
  below x y = false -> lane_count b cx cy x y n = n.
Proof. intros H; destruct b; cbn [lane_count]; [|rewrite H]; reflexivity. Qed.

Lemma lane_inv_step cx cy b r L :
  Z.of_nat (S b) <= max_its ->
  lane_inv max_its cx cy (S b) r L -> lane_inv max_its cx cy b r (lane_body cx cy L).
Proof.
  intros Hb [Hne Hit Hr|Hne Hit Hxs Hys Hlt Hr].
  - apply lane_frozen; unfold lane_body; cbn [l_ne l_it].
    + rewrite Hne. apply Z.land_0_r.
    + rewrite Hne, Z.add_0_r, wrap32_small by lia. exact Hit.
    + rewrite Hne, Z.add_0_r, wrap32_small by lia. exact Hr.
  - assert (Hit' : wrap32 (l_it L + l_ne L) = Z.of_nat b).
    { rewrite Hne, Hit, wrap32_decrement by lia. lia. }
    cbn [lane_count] in Hr. rewrite Hlt in Hr.
    replace (max_its - Z.of_nat (S b) + 1) with (max_its - Z.of_nat b) in Hr by lia.
    unfold next_x, next_y in Hr. rewrite <- Hxs, <- Hys in Hr.
    set (x' := add (sub (l_xsq L) (l_ysq L)) cx) in *.
    set (y' := add (add (mul (l_x L) (l_y L)) (mul (l_x L) (l_y L))) cy) in *.
    destruct (below x' y') eqn:Hnext.
    + apply lane_running; unfold lane_body; cbn [l_ne l_it l_x l_y l_xsq l_ysq];
        fold x' y'; auto.
      unfold below in Hnext. rewrite Hnext, Hne. reflexivity.
    + apply lane_frozen; unfold lane_body; cbn [l_ne l_it]; fold x' y'.
      * unfold below in Hnext. rewrite Hnext. reflexivity.
      * rewrite Hit'. lia.
      * rewrite Hit', Hr. apply lane_count_stop, Hnext.
Qed.

Lemma state_inv_step b r4 s :
  Z.of_nat (S b) <= max_its ->
  state_inv max_its cx4 cy4 (S b) r4 s ->
  state_inv max_its cx4 cy4 b r4 (member4_body cx4 cy4 s).
Proof.
  intros Hb [_ Hl]; split; [reflexivity|].
  intros l. rewrite lane_of_body. apply lane_inv_step; auto.
Qed.

Lemma state_inv_init :
  state_inv max_its cx4 cy4 (Z.to_nat max_its) (lane_counts max_its cx4 cy4)
            (member4_init max_its cx4 cy4).
Proof.
  split; [reflexivity|]. intros l.
  assert (Hlane : lane_of (member4_init max_its cx4 cy4) l
                  = LaneState (wrap32 max_its) (get cx4 l) (get cy4 l)
                      (mul (get cx4 l) (get cx4 l)) (mul (get cy4 l) (get cy4 l))
                      (if below (get cx4 l) (get cy4 l) then ALL_ONES else 0))
    by (destruct l; reflexivity).
  assert (Hr : get (lane_counts max_its cx4 cy4) l
               = lane_count (Z.to_nat max_its) (get cx4 l) (get cy4 l)
                   (get cx4 l) (get cy4 l) 0)
    by (destruct l; reflexivity).
  rewrite Hlane, Hr, wrap32_small by lia.
  destruct (below (get cx4 l) (get cy4 l)) eqn:Hlt.
  - apply lane_running; cbn [l_ne l_it l_x l_y l_xsq l_ysq]; auto.
    + lia.
    + f_equal. lia.
  - apply lane_frozen; cbn [l_ne l_it]; auto; try lia.
    rewrite lane_count_stop by exact Hlt. lia.
Qed.

End LoopInvariant.

(** ** The loop leaves within its budget *)

Lemma passes_shift cx4 cy4 m s :
  passes cx4 cy4 (S m) s = passes cx4 cy4 m (member4_body cx4 cy4 s).
Proof. unfold passes. apply Nat.iter_succ_r. Qed.

Lemma exits_after_next cx4 cy4 s n s' :
  mask s <> 0xFFFF ->
  exits_after cx4 cy4 (member4_body cx4 cy4 s) n s' ->
  exits_after cx4 cy4 s (S n) s'.
Proof.
  intros Hm (He & Hx & Hb). repeat split.
  - rewrite passes_shift. exact He.
  - exact Hx.
  - intros [|m] Hlt; [exact Hm|].
    rewrite passes_shift. apply Hb. lia.
Qed.

(** Whatever the bound on the passes, as long as it is at least [n]. *)
Lemma exits_after_loop cx4 cy4 n :
  forall s s', exits_after cx4 cy4 s n s' ->
  forall fuel, (n <= fuel)%nat -> member4_loop fuel cx4 cy4 s = Some s'.
Proof.
  induction n as [|n IH]; intros s s' (He & Hx & Hb) fuel Hf.
  - cbn in He; subst s'.
    destruct fuel; cbn [member4_loop]; rewrite Hx; reflexivity.
  - destruct fuel as [|fuel]; [lia|]. cbn [member4_loop].
    destruct (Z.eqb_spec (mask s) 0xFFFF) as [E|E].
    + exfalso. apply (Hb O); [lia | exact E].
    + apply IH; [|lia]. repeat split.
      * rewrite <- passes_shift. exact He.
      * exact Hx.
      * intros m Hm. rewrite <- passes_shift. apply Hb. lia.
Qed.

Section JointLoop.

Variable max_its : Z.
Hypothesis max_its_int : 0 <= max_its < 2 ^ 31.

Variables cx4 cy4 : __m128.

Let pow31_lt : 2 ^ 31 < 2 ^ 32.
Proof. reflexivity. Qed.

Lemma state_inv_counter b r4 s l :
  Z.of_nat b <= max_its -> state_inv max_its cx4 cy4 b r4 s ->
  0 <= get (iterations4 s) l <= max_its.
Proof.
  intros Hb [_ Hl].
  apply (lane_inv_range max_its _ _ _ _ _ Hb (Hl l)).
Qed.

(** A state in which every lane is done already holds the result. *)
Lemma state_inv_result b r4 s l :
  Z.of_nat b <= max_its -> state_inv max_its cx4 cy4 b r4 s ->
  mask s = 0xFFFF ->
  get (member4_result max_its s) l = get r4 l.
Proof.
  intros Hb [Hmask Hl] Hx.
  assert (Hdone : lane_done (lane_of s l) = true).
  { apply escape_mask_done; [exact Hmask | rewrite Hx; reflexivity]. }
  rewrite get_member4_result.
  rewrite (lane_inv_done max_its max_its_int _ _ _ _ _ Hb (Hl l) Hdone).
  pose proof (lane_inv_range max_its _ _ _ _ _ Hb (Hl l)) as Hr.
  cbn [lane_of l_it] in *.
  rewrite (wrap32_small max_its) by lia. apply wrap32_small; lia.
Qed.

(** ... and each of its lanes has escaped or used up the budget. *)
Lemma state_inv_idle b r4 s l :
  Z.of_nat b <= max_its -> state_inv max_its cx4 cy4 b r4 s ->
  mask s = 0xFFFF ->
  get (not_escape4 s) l = 0 \/ get (iterations4 s) l = 0.
Proof.
  intros Hb [Hmask Hl] Hx.
  assert (Hdone : lane_done (lane_of s l) = true).
  { apply escape_mask_done; [exact Hmask | rewrite Hx; reflexivity]. }
  destruct (Hl l) as [Hne _ _|Hne Hit _ _ _ _]; cbn [lane_of l_ne l_it] in *.
  - left; exact Hne.
  - right. unfold lane_done in Hdone; cbn [lane_of l_ne l_it] in Hdone.
    rewrite Hne, land_all_ones in Hdone by (rewrite Hit; lia).
    apply Z.eqb_eq, Hdone.
Qed.

Lemma state_inv_exhausted r4 s :
  state_inv max_its cx4 cy4 0 r4 s -> mask s = 0xFFFF.
Proof.
  intros [Hmask Hl]. apply Z.eqb_eq, escape_mask_done; [exact Hmask|].
  intros l; eapply lane_inv_exhausted, Hl.
Qed.

(** From a state that satisfies the invariant with budget [b], the loop
    leaves within [b] passes, no counter ever leaves [0, max_its] on the
    way, and the vector returned is the one the invariant names. *)
Lemma loop_from_invariant b :
  forall r4 s,
    Z.of_nat b <= max_its -> state_inv max_its cx4 cy4 b r4 s ->
    exists n s',
      (n <= b)%nat /\
      exits_after cx4 cy4 s n s' /\
      (forall l, get (member4_result max_its s') l = get r4 l) /\
      (forall l, get (not_escape4 s') l = 0 \/ get (iterations4 s') l = 0) /\
      (forall m l, (m <= n)%nat ->
         0 <= get (iterations4 (passes cx4 cy4 m s)) l <= max_its).
Proof.
  assert (Hnow : forall b r4 s,
             Z.of_nat b <= max_its -> state_inv max_its cx4 cy4 b r4 s ->
             mask s = 0xFFFF ->
             exists n s',
               (n <= b)%nat /\
               exits_after cx4 cy4 s n s' /\
               (forall l, get (member4_result max_its s') l = get r4 l) /\
               (forall l, get (not_escape4 s') l = 0 \/ get (iterations4 s') l = 0) /\
               (forall m l, (m <= n)%nat ->
                  0 <= get (iterations4 (passes cx4 cy4 m s)) l <= max_its)).
  { intros b' r4 s Hb Hinv Hx. exists O, s.
    refine (conj (Nat.le_0_l _) (conj _ (conj _ (conj _ _)))).
    - refine (conj eq_refl (conj Hx _)). intros m Hm; lia.
    - intros l. eapply state_inv_result; eassumption.
    - intros l. eapply state_inv_idle; eassumption.
    - intros m l Hm. assert (m = O) by lia; subst m.
      eapply state_inv_counter; eassumption. }
  induction b as [|b IH]; intros r4 s Hb Hinv.
  - apply Hnow; auto. eapply state_inv_exhausted, Hinv.
  - destruct (Z.eqb_spec (mask s) 0xFFFF) as [E|E].
    + apply Hnow; auto.
    + pose proof (state_inv_step max_its max_its_int cx4 cy4 b r4 s Hb Hinv) as Hnext.
      destruct (IH r4 _ ltac:(lia) Hnext)
        as (n & s' & Hn & Hex & Hres & Hidle & Hrange).
      exists (S n), s'.
      refine (conj _ (conj _ (conj Hres (conj Hidle _)))).
      * lia.
      * apply exits_after_next; assumption.
      * intros [|m] l Hm.
        -- eapply state_inv_counter; eassumption.
        -- rewrite passes_shift. apply Hrange. lia.
Qed.

(** [member4] as a whole: the loop leaves within [max_its] passes and the
    lanes of the result are the lanes' own counts. *)
Lemma member4_runs :
  exists n s',
    (n <= Z.to_nat max_its)%nat /\
    exits_after cx4 cy4 (member4_init max_its cx4 cy4) n s' /\
    (forall l, get (member4_result max_its s') l
               = get (lane_counts max_its cx4 cy4) l) /\
    (forall l, get (not_escape4 s') l = 0 \/ get (iterations4 s') l = 0) /\
    (forall m l, (m <= n)%nat ->
       0 <= get (iterations4 (passes cx4 cy4 m (member4_init max_its cx4 cy4))) l
         <= max_its).
Proof.
  apply loop_from_invariant; [lia|].
  apply state_inv_init, max_its_int.
Qed.

End JointLoop.

Lemma vec_ext {A} (a b : vec A) : (forall l, get a l = get b l) -> a = b.
Proof.
  intros H. destruct a, b.
  pose proof (H L0); pose proof (H L1); pose proof (H L2); pose proof (H L3).
  cbn in *; congruence.
Qed.

(** With room for [max_its] passes, [member4] returns the lanes' counts. *)
Lemma member4_fuel_counts max_its cx4 cy4 fuel :
  0 <= max_its < 2 ^ 31 -> (Z.to_nat max_its <= fuel)%nat ->
  member4_fuel max_its fuel cx4 cy4 = Some (lane_counts max_its cx4 cy4).
Proof.
  intros Hmax Hfuel.
  destruct (member4_runs max_its Hmax cx4 cy4) as (n & s' & Hn & Hex & Hres & _ & _).
  unfold member4_fuel.
  rewrite (exits_after_loop cx4 cy4 n _ _ Hex fuel) by lia.
  cbn [option_map]. f_equal. apply vec_ext, Hres.
Qed.

Lemma MAX_ITS_int : 0 <= MAX_ITS < 2 ^ 31.
Proof. unfold MAX_ITS; split; [lia | reflexivity]. Qed.

Lemma member4_counts cx4 cy4 :
  member4 cx4 cy4 = Some (lane_counts MAX_ITS cx4 cy4).
Proof. apply member4_fuel_counts; [apply MAX_ITS_int | lia]. Qed.

(** ** The lane's count against the scalar recurrence *)

Lemma get_lane_counts max_its cx4 cy4 l :
  get (lane_counts max_its cx4 cy4) l
  = lane_count (Z.to_nat max_its) (get cx4 l) (get cy4 l) (get cx4 l) (get cy4 l) 0.
Proof. destruct l; reflexivity. Qed.

Lemma lane_count_range b cx cy :
  forall x y n, n <= lane_count b cx cy x y n <= n + Z.of_nat b.
Proof.
  induction b as [|b IH]; intros x y n; cbn [lane_count]; [lia|].
  destruct (below x y); [|lia].
  specialize (IH (next_x cx x y) (next_y cy x y) (n + 1)). lia.
Qed.

(** On a point whose coordinates are numbers, the test [>= 4.0] of the
    recurrence and the test [not (< 4.0)] of the loop agree. *)
Lemma escaped_not_below x y :
  is_nan x = false -> is_nan y = false -> escaped x y = negb (below x y).
Proof.
  intros Hx Hy. unfold escaped, below.
  apply ge_four_iff_not_lt, add_signed_not_nan; apply mul_self_signed; assumption.
Qed.

(** Inside the limit the squares of the coordinates are finite. *)
Lemma below_finite x y :
  is_nan x = false -> is_nan y = false -> below x y = true ->
  finite (mul x x) = true /\ finite (mul y y) = true.
Proof.
  intros Hx Hy Hb. unfold below in Hb.
  apply add_lt_four_finite in Hb; try (apply mul_self_signed; assumption).
  exact Hb.
Qed.

Lemma next_not_nan cx cy x y :
  finite cx = true -> finite cy = true ->
  finite (mul x x) = true -> finite (mul y y) = true ->
  is_nan (next_x cx x y) = false /\ is_nan (next_y cy x y) = false.
Proof.
  intros Hcx Hcy Hx Hy; unfold next_x, next_y; split.
  - apply add_finite_not_nan; [|exact Hcx].
    apply sub_finite_not_nan; assumption.
  - apply add_finite_not_nan; [|exact Hcy].
    apply add_self_not_nan, mul_finite_not_nan; apply mul_self_finite; assumption.
Qed.

(** From a point with finite [c] and number coordinates, the loop's count
    and the scalar recurrence agree. *)
Lemma lane_count_scalar_from b cx cy :
  finite cx = true -> finite cy = true ->
  forall x y n,
    is_nan x = false -> is_nan y = false ->
    lane_count b cx cy x y n = scalar_loop b cx cy x y n.
Proof.
  intros Hcx Hcy.
  induction b as [|b IH]; intros x y n Hx Hy; cbn [lane_count scalar_loop];
    [reflexivity|].
  rewrite escaped_not_below by assumption.
  destruct (below x y) eqn:Hb; cbn [negb]; [|reflexivity].
  destruct (below_finite x y Hx Hy Hb) as [Hxx Hyy].
  destruct (next_not_nan cx cy x y Hcx Hcy Hxx Hyy) as [Hnx Hny].
  apply IH; assumption.
Qed.

(** The same from [z0 = c], for any [c] whose coordinates are numbers:
    an infinite coordinate escapes at once on both sides. *)
Lemma lane_count_scalar max_its cx cy :
  is_nan cx = false -> is_nan cy = false ->
  lane_count (Z.to_nat max_its) cx cy cx cy 0 = scalar_escape_time max_its cx cy.
Proof.
  intros Hx Hy. unfold scalar_escape_time.
  destruct (Z.to_nat max_its) as [|b]; [reflexivity|].
  cbn [lane_count scalar_loop].
  rewrite escaped_not_below by assumption.
  destruct (below cx cy) eqn:Hb; cbn [negb]; [|reflexivity].
  destruct (below_finite cx cy Hx Hy Hb) as [Hxx Hyy].
  assert (Hcx : finite cx = true) by (apply mul_self_finite, Hxx).
  assert (Hcy : finite cy = true) by (apply mul_self_finite, Hyy).
  destruct (next_not_nan cx cy cx cy Hcx Hcy Hxx Hyy) as [Hnx Hny].
  apply lane_count_scalar_from; assumption.
Qed.

(** A NaN coordinate is where the two tests part: the loop's [<] fails at
    once, the recurrence's [>=] never holds. *)
Lemma lane_count_nan b cy : lane_count b S754_nan cy S754_nan cy 0 = 0.
Proof. apply lane_count_stop. reflexivity. Qed.

Example nan_lane :
  member4 (_mm_set1_ps S754_nan) (_mm_set1_ps zero) = Some (Vec 0 0 0 0) /\
  scalar_escape_time MAX_ITS S754_nan zero = MAX_ITS.
Proof. vm_compute. split; reflexivity. Qed.

(** ** Closed orbits *)

Lemma origin_below : below zero zero = true.
Proof. vm_compute. reflexivity. Qed.

Lemma origin_next :
  next_x zero zero zero = zero /\ next_y zero zero zero = zero.
Proof. vm_compute. split; reflexivity. Qed.

Lemma lane_count_origin b :
  forall n, lane_count b zero zero zero zero n = n + Z.of_nat b.
Proof.
  destruct origin_next as [Ex Ey].
  induction b as [|b IH]; intros n; cbn [lane_count]; [lia|].
  rewrite origin_below, Ex, Ey, IH. lia.
Qed.

Lemma minus_one_below :
  below minus_one zero = true /\ below zero zero = true.
Proof. vm_compute. split; reflexivity. Qed.

(** [-1 -> 0 -> -1]: the orbit of [c = -1] has period two. *)
Lemma minus_one_next :
  next_x minus_one minus_one zero = zero /\ next_y zero minus_one zero = zero /\
  next_x minus_one zero zero = minus_one /\ next_y zero zero zero = zero.
Proof. vm_compute. repeat split; reflexivity. Qed.

Lemma lane_count_minus_one b :
  forall n,
    lane_count b minus_one zero minus_one zero n = n + Z.of_nat b /\
    lane_count b minus_one zero zero zero n = n + Z.of_nat b.
Proof.
  destruct minus_one_below as [B1 B0].
  destruct minus_one_next as (X1 & Y1 & X0 & Y0).
  induction b as [|b IH]; intros n; cbn [lane_count]; [lia|].
  rewrite B1, B0, X1, Y1, X0, Y0.
  destruct (IH (n + 1)) as [IH1 IH0]. rewrite IH1, IH0. lia.
Qed.

(** ** The evaluator *)

Lemma lane_counts_int max_its cx4 cy4 l :
  0 <= max_its < 2 ^ 31 ->
  0 <= get (lane_counts max_its cx4 cy4) l <= max_its.
Proof.
  intros H. rewrite get_lane_counts.
  pose proof (lane_count_range (Z.to_nat max_its) (get cx4 l) (get cy4 l)
                (get cx4 l) (get cy4 l) 0).
  lia.
Qed.

Lemma lane_counts_signed max_its cx4 cy4 l :
  0 <= max_its < 2 ^ 31 ->
  signed32 (get (lane_counts max_its cx4 cy4) l)
  = get (lane_counts max_its cx4 cy4) l.
Proof.
  intros H. apply signed32_small.
  pose proof (lane_counts_int max_its cx4 cy4 l H). lia.
Qed.

(** The constants of the source are well-formed binary32 numbers. *)
Example constants_valid :
  forallb valid [ZOOM_FACTOR; PX; PY; four; zoom_multiplier; delta_x; center]
  = true.
Proof. vm_compute. reflexivity. Qed.

Example constants_values :
  ZOOM_FACTOR = S754_finite false 8975811 (-23) /\
  PX = S754_finite true 11782560 (-24) /\
  PY = S754_finite false 11751459 (-25) /\
  center = S754_finite true 8388608 (-22).
Proof. vm_compute. repeat split; reflexivity. Qed.

Example member4_sample :
  member4 sample_cx4 sample_cy4 = Some (Vec 500 500 32 500).
Proof. vm_compute. reflexivity. Qed.

(** C1.  For every batch and every lane whose point has number coordinates
    (not NaN), [member4] returns, and the lane's count is the count of the
    scalar escape-time recurrence run on that point alone: start at
    [z0 = c], escape when [x*x + y*y >= 4.0], cap at [MAX_ITS], stop
    exactly at escape.  The other lanes of the batch play no part. *)
Theorem member4_refines_scalar cx4 cy4 l :
  is_nan (get cx4 l) = false -> is_nan (get cy4 l) = false ->
  exists r,
    member4 cx4 cy4 = Some r /\
    signed32 (get r l) = scalar_escape_time MAX_ITS (get cx4 l) (get cy4 l).
Proof.
  intros Hx Hy. exists (lane_counts MAX_ITS cx4 cy4). split.
  - apply member4_counts.
  - rewrite lane_counts_signed by apply MAX_ITS_int.
    rewrite get_lane_counts. apply lane_count_scalar; assumption.
Qed.

Lemma member4_refines_scalar_witness :
  is_nan (get sample_cx4 L2) = false /\
  is_nan (get sample_cy4 L2) = false /\
  exists r,
    member4 sample_cx4 sample_cy4 = Some r /\
    signed32 (get r L2)
    = scalar_escape_time MAX_ITS (get sample_cx4 L2) (get sample_cy4 L2).
Proof.
  split; [reflexivity | split; [reflexivity |]].
  apply (member4_refines_scalar sample_cx4 sample_cy4 L2); reflexivity.
Defined.

(** C6.  For every batch [member4] returns four counts in [0, MAX_ITS],
    and in every state the joint loop passes through, up to and including
    the one it leaves in, every lane's countdown counter, read as an [int],
    lies in [0, MAX_ITS]: no counter is ever decremented below zero. *)
Theorem member4_counts_bounded cx4 cy4 :
  exists n s' r,
    exits_after cx4 cy4 (member4_init MAX_ITS cx4 cy4) n s' /\
    member4 cx4 cy4 = Some r /\
    (forall l, 0 <= signed32 (get r l) <= MAX_ITS) /\
    (forall m l, (m <= n)%nat ->
       0 <= signed32 (get (iterations4
                             (passes cx4 cy4 m (member4_init MAX_ITS cx4 cy4))) l)
         <= MAX_ITS).
Proof.
  destruct (member4_runs MAX_ITS MAX_ITS_int cx4 cy4)
    as (n & s' & Hn & Hex & Hres & _ & Hrange).
  exists n, s', (lane_counts MAX_ITS cx4 cy4).
  refine (conj Hex (conj (member4_counts cx4 cy4) (conj _ _))).
  - intros l. rewrite lane_counts_signed by apply MAX_ITS_int.
    apply lane_counts_int, MAX_ITS_int.
  - intros m l Hm. specialize (Hrange m l Hm).
    rewrite signed32_small; [exact Hrange|].
    pose proof MAX_ITS_int. lia.
Qed.

Lemma passes_mask cx4 cy4 max_its m :
  let s := passes cx4 cy4 m (member4_init max_its cx4 cy4) in
  mask s = escape_mask (not_escape4 s) (iterations4 s).
Proof. destruct m; reflexivity. Qed.

Lemma some_lane_running s :
  mask s = escape_mask (not_escape4 s) (iterations4 s) ->
  mask s <> 0xFFFF -> exists l, lane_done (lane_of s l) = false.
Proof.
  intros Hm Hne.
  destruct (lane_done (lane_of s L0)) eqn:E0; [|exists L0; exact E0].
  destruct (lane_done (lane_of s L1)) eqn:E1; [|exists L1; exact E1].
  destruct (lane_done (lane_of s L2)) eqn:E2; [|exists L2; exact E2].
  destruct (lane_done (lane_of s L3)) eqn:E3; [|exists L3; exact E3].
  exfalso. apply Hne, Z.eqb_eq, escape_mask_done; [exact Hm|].
  intros []; assumption.
Qed.

(** C7.  For every batch the joint loop of [member4] terminates: it leaves
    after some [n <= MAX_ITS] passes, so any bound of at least [n] passes
    lets it run to its exit.  On exit every lane has escaped (its
    [not_escape4] lane is zero) or is capped (its counter is zero); before
    each of the [n] passes some lane was still running, and all four lanes
    went through all [n] passes: there is no per-lane return. *)
Theorem member4_terminates cx4 cy4 :
  exists n s',
    (n <= Z.to_nat MAX_ITS)%nat /\
    exits_after cx4 cy4 (member4_init MAX_ITS cx4 cy4) n s' /\
    (forall fuel, (n <= fuel)%nat ->
       member4_loop fuel cx4 cy4 (member4_init MAX_ITS cx4 cy4) = Some s') /\
    (forall l, get (not_escape4 s') l = 0 \/ get (iterations4 s') l = 0) /\
    (forall m, (m < n)%nat ->
       exists l,
         lane_done (lane_of (passes cx4 cy4 m (member4_init MAX_ITS cx4 cy4)) l)
         = false).
Proof.
  destruct (member4_runs MAX_ITS MAX_ITS_int cx4 cy4)
    as (n & s' & Hn & Hex & _ & Hidle & _).
  exists n, s'.
  refine (conj Hn (conj Hex (conj _ (conj Hidle _)))).
  - intros fuel Hf. eapply exits_after_loop; eassumption.
  - intros m Hm. apply some_lane_running.
    + apply passes_mask.
    + destruct Hex as (_ & _ & Hb). apply Hb, Hm.
Qed.

(** C9.  For every batch in which every lane's point satisfies
    [cx*cx + cy*cy >= 4.0], [member4] returns count 0 in every lane, and
    does so without a single pass through the loop body. *)
Theorem member4_immediate_escape cx4 cy4 :
  (forall l, escaped (get cx4 l) (get cy4 l) = true) ->
  member4_fuel MAX_ITS 0 cx4 cy4 = Some (Vec 0 0 0 0) /\
  member4 cx4 cy4 = Some (Vec 0 0 0 0).
Proof.
  intros Hesc.
  assert (Hmask : mask (member4_init MAX_ITS cx4 cy4) = 0xFFFF).
  { apply Z.eqb_eq, escape_mask_done; [reflexivity|].
    intros l. unfold lane_done.
    replace (l_ne (lane_of (member4_init MAX_ITS cx4 cy4) l))
      with (if below (get cx4 l) (get cy4 l) then ALL_ONES else 0)
      by (destruct l; reflexivity).
    specialize (Hesc l). unfold escaped in Hesc. apply ge_four_not_lt in Hesc.
    unfold below. rewrite Hesc. reflexivity. }
  assert (Hex : exits_after cx4 cy4 (member4_init MAX_ITS cx4 cy4) 0
                  (member4_init MAX_ITS cx4 cy4)).
  { refine (conj eq_refl (conj Hmask _)). intros m Hm; lia. }
  assert (Hrun : forall fuel, member4_fuel MAX_ITS fuel cx4 cy4 = Some (Vec 0 0 0 0)).
  { intros fuel. unfold member4_fuel.
    rewrite (exits_after_loop cx4 cy4 0 _ _ Hex fuel) by lia. reflexivity. }
  split; apply Hrun.
Qed.

Lemma member4_immediate_escape_witness :
  (forall l, escaped (get (_mm_setr_ps two zero two minus_one) l)
                     (get (_mm_setr_ps zero two two two) l) = true) /\
  member4_fuel MAX_ITS 0 (_mm_setr_ps two zero two minus_one)
                         (_mm_setr_ps zero two two two) = Some (Vec 0 0 0 0) /\
  member4 (_mm_setr_ps two zero two minus_one) (_mm_setr_ps zero two two two)
  = Some (Vec 0 0 0 0).
Proof.
  assert (H : forall l, escaped (get (_mm_setr_ps two zero two minus_one) l)
                                (get (_mm_setr_ps zero two two two) l) = true)
    by (intros []; reflexivity).
  split; [exact H|].
  apply (member4_immediate_escape (_mm_setr_ps two zero two minus_one)
                                  (_mm_setr_ps zero two two two) H).
Defined.

(** C10.  Whatever the cap [max_its] (any non-negative [int]) and whatever
    the other lanes hold, a lane whose point is [0 + 0i] or [-1 + 0i] gets
    the count [max_its]: the orbit of [0] stays at the origin and that of
    [-1] alternates between [-1] and [0], so neither reaches the limit. *)
Theorem member4_bounded_orbits max_its cx4 cy4 l :
  0 <= max_its < 2 ^ 31 ->
  (get cx4 l = zero \/ get cx4 l = minus_one) -> get cy4 l = zero ->
  exists r,
    member4_fuel max_its (Z.to_nat max_its) cx4 cy4 = Some r /\
    signed32 (get r l) = max_its.
Proof.
  intros Hmax Hcx Hcy. exists (lane_counts max_its cx4 cy4). split.
  - apply member4_fuel_counts; [exact Hmax | lia].
  - rewrite lane_counts_signed by exact Hmax.
    rewrite get_lane_counts, Hcy.
    destruct Hcx as [-> | ->].
    + rewrite lane_count_origin. lia.
    + destruct (lane_count_minus_one (Z.to_nat max_its) 0) as [-> _]. lia.
Qed.

Lemma member4_bounded_orbits_witness :
  0 <= MAX_ITS < 2 ^ 31 /\
  (get sample_cx4 L0 = zero \/ get sample_cx4 L0 = minus_one) /\
  get sample_cy4 L0 = zero /\
  exists r,
    member4_fuel MAX_ITS (Z.to_nat MAX_ITS) sample_cx4 sample_cy4 = Some r /\
    signed32 (get r L0) = MAX_ITS.
Proof.
  assert (H1 : 0 <= MAX_ITS < 2 ^ 31) by (split; [discriminate | reflexivity]).
  assert (H2 : get sample_cx4 L0 = zero \/ get sample_cx4 L0 = minus_one)
    by (right; reflexivity).
  assert (H3 : get sample_cy4 L0 = zero) by reflexivity.
  refine (conj H1 (conj H2 (conj H3 _))).
  apply (member4_bounded_orbits MAX_ITS sample_cx4 sample_cy4 L0 H1 H2 H3).
Defined.

(** ** The palette index *)

Lemma get_color_index4 v l : get (color_index4 v) l = lane_color (get v l).
Proof. destruct l; reflexivity. Qed.

Lemma land_mod_mask k : 0 <= k -> Z.land k 0x3F = k mod 64.
Proof. intros H. change 0x3F with (Z.ones 6). apply Z.land_ones. lia. Qed.

(** On a 32-bit lane: index 0 at the cap, [(k mod 64) + 1] elsewhere. *)
Lemma lane_color_spec k :
  0 <= k < 2 ^ 32 ->
  lane_color k = if k =? MAX_ITS then 0 else k mod 64 + 1.
Proof.
  intros Hk. unfold lane_color. rewrite land_mod_mask by lia.
  pose proof (Z.mod_pos_bound k 64 ltac:(lia)) as Hm.
  assert (H32 : 2 ^ 32 = 4294967296) by reflexivity.
  rewrite wrap32_small by lia.
  destruct (k =? MAX_ITS).
  - change (Z.lxor ALL_ONES ALL_ONES) with 0. apply Z.land_0_r.
  - change (Z.lxor 0 ALL_ONES) with ALL_ONES.
    rewrite Z.land_comm. apply land_all_ones. lia.
Qed.

Lemma color_index_spec r l :
  0 <= get r l <= MAX_ITS ->
  color_index (color_index4 r) l
  = if get r l =? MAX_ITS then 0 else get r l mod 64 + 1.
Proof.
  intros Hk. unfold color_index. rewrite get_color_index4.
  assert (H32 : 2 ^ 32 = 4294967296) by reflexivity.
  assert (H31 : 2 ^ 31 = 2147483648) by reflexivity.
  unfold MAX_ITS in Hk.
  rewrite lane_color_spec by lia.
  pose proof (Z.mod_pos_bound (get r l) 64 ltac:(lia)) as Hm.
  apply signed32_small. destruct (get r l =? MAX_ITS); lia.
Qed.

Lemma color_index_range r l :
  0 <= get r l <= MAX_ITS -> 0 <= color_index (color_index4 r) l <= 64.
Proof.
  intros Hk. rewrite color_index_spec by exact Hk.
  pose proof (Z.mod_pos_bound (get r l) 64 ltac:(lia)) as Hm.
  destruct (get r l =? MAX_ITS); lia.
Qed.

(** A property checked on [0 .. n-1] holds on that range. *)
Lemma Z_range_forallb (P : Z -> bool) (n : nat) :
  forallb P (map Z.of_nat (seq 0 n)) = true ->
  forall i, 0 <= i < Z.of_nat n -> P i = true.
Proof.
  intros H i Hi. rewrite forallb_forall in H. apply H.
  rewrite <- (Z2Nat.id i) by lia. apply in_map, in_seq. lia.
Qed.

Lemma pal_length : length pal = 195%nat.
Proof. reflexivity. Qed.

(** Every index up to 64 has its three bytes inside [pal]. *)
Lemma pal_rgb_in_bounds i : 0 <= i <= 64 -> exists rgb, pal_rgb i = Some rgb.
Proof.
  intros Hi.
  assert (H : is_some (pal_rgb i) = true).
  { apply (Z_range_forallb (fun i => is_some (pal_rgb i)) 65);
      [vm_compute; reflexivity | lia]. }
  destruct (pal_rgb i) as [rgb|]; [exists rgb; reflexivity | discriminate].
Qed.

(** The counts [member4] hands to the renderer. *)
Lemma member4_returns cx4 cy4 :
  exists r, member4 cx4 cy4 = Some r /\
            forall l, 0 <= get r l <= MAX_ITS /\ signed32 (get r l) = get r l.
Proof.
  exists (lane_counts MAX_ITS cx4 cy4). split; [apply member4_counts|].
  intros l. split.
  - apply lane_counts_int, MAX_ITS_int.
  - apply lane_counts_signed, MAX_ITS_int.
Qed.

(** C2.  For every batch, the count [k] that [member4] returns for a lane
    is mapped by the renderer to palette index 0 when [k = MAX_ITS] and to
    [(k mod 64) + 1] when [k < MAX_ITS]. *)
Theorem palette_index_mapping cx4 cy4 l :
  exists r,
    member4 cx4 cy4 = Some r /\
    (signed32 (get r l) = MAX_ITS -> color_index (color_index4 r) l = 0) /\
    (signed32 (get r l) < MAX_ITS ->
       color_index (color_index4 r) l = signed32 (get r l) mod 64 + 1).
Proof.
  destruct (member4_returns cx4 cy4) as (r & Hr & Hl).
  exists r. split; [exact Hr|].
  destruct (Hl l) as [Hk Hs]. rewrite Hs, color_index_spec by exact Hk.
  split; intros H.
  - rewrite H, Z.eqb_refl. reflexivity.
  - destruct (Z.eqb_spec (get r l) MAX_ITS); [lia | reflexivity].
Qed.

(** C3 (counterexample).  Pixel (433, 143) of the first frame: batch 108
    of row 143, lane 1.  Its
    point escapes after 63 passes, and the renderer gives it palette index
    64, outside [0, 63]. *)
Lemma palette_index_64_on_first_frame :
  exists r,
    batch_iterations (frame_window 0) 108 143 = Some r /\
    signed32 (get r L1) = 63 /\
    signed32 (get r L1) < MAX_ITS /\
    color_index (color_index4 r) L1 = 64 /\
    ~ (0 <= color_index (color_index4 r) L1 <= 63).
Proof.
  exists (Vec 23 63 18 19).
  split; [vm_compute; reflexivity|].
  split; [reflexivity|].
  split; [reflexivity|].
  split; [reflexivity|].
  vm_compute. intros [_ H]. apply H. reflexivity.
Qed.

(** C3 (amended).  For every frame and every pixel of it, the evaluator
    returns and the palette index computed from the pixel's count lies in
    [0, 64]; when the count is below [MAX_ITS] the index is
    [(k mod 64) + 1] and lies in [1, 64]. *)
Theorem palette_index_bounds (n b : nat) (hy : Z) (l : lane) :
  exists r,
    batch_iterations (frame_window n) b hy = Some r /\
    0 <= color_index (color_index4 r) l <= 64 /\
    (signed32 (get r l) < MAX_ITS ->
       color_index (color_index4 r) l = signed32 (get r l) mod 64 + 1 /\
       1 <= color_index (color_index4 r) l <= 64).
Proof.
  unfold batch_iterations.
  destruct (member4_returns (row_x4 (frame_window n) b) (row_y4 (frame_window n) hy))
    as (r & Hr & Hl).
  exists r. split; [exact Hr|].
  destruct (Hl l) as [Hk Hs]. split.
  - apply color_index_range, Hk.
  - intros Hlt. rewrite Hs in *. rewrite color_index_spec by exact Hk.
    destruct (Z.eqb_spec (get r l) MAX_ITS); [lia|].
    pose proof (Z.mod_pos_bound (get r l) 64 ltac:(lia)). lia.
Qed.

(** ** The colours *)

(** Up to 63 the replicated table does stand in for the ramp taken
    modulo 40. *)
Lemma color_written_below_64 k :
  0 <= k < 64 -> color_written k = ramp_color (k mod PAL_SIZE).
Proof.
  intros Hk.
  set (same := fun k =>
         match color_written k, ramp_color (k mod PAL_SIZE) with
         | Some (r, g, b), Some (r', g', b') =>
             (r =? r') && (g =? g') && (b =? b')
         | _, _ => false
         end).
  assert (H : same k = true).
  { apply (Z_range_forallb same 64); [vm_compute; reflexivity | lia]. }
  unfold same in H.
  destruct (color_written k) as [[[r g] b]|]; [|discriminate].
  destruct (ramp_color (k mod PAL_SIZE)) as [[[r' g'] b']|]; [|discriminate].
  apply andb_prop in H; destruct H as [H Hb].
  apply andb_prop in H; destruct H as [Hr Hg].
  apply Z.eqb_eq in Hr, Hg, Hb. subst. reflexivity.
Qed.

(** C4 (the code at a failing input).  Pixel (432, 158) of the first
    frame, batch 108 of row 158, lane 0, has count 64.  The renderer writes
    the first colour of the ramp, (255, 180, 4), for it, where the ramp
    taken at [64 mod 40 = 24] holds (166, 59, 4): from count 64 on, the
    index modulo 64 into the replicated table is not the index modulo 40
    into the ramp. *)
Theorem mod64_is_not_mod40_at_64 :
  exists r ws,
    batch_iterations (frame_window 0) 108 158 = Some r /\
    signed32 (get r L0) = 64 /\
    render_batch 432 158 (row_x4 (frame_window 0) 108)
                         (row_y4 (frame_window 0) 158) = Some ws /\
    nth_error ws 0 = Some (PixelWrite 432 158 255 180 4) /\
    color_written 64 = Some (255, 180, 4) /\
    ramp_color (64 mod PAL_SIZE) = Some (166, 59, 4).
Proof.
  exists (Vec 64 500 500 500).
  eexists.
  split; [vm_compute; reflexivity|].
  split; [reflexivity|].
  split; [vm_compute; reflexivity|].
  repeat split; reflexivity.
Qed.

(** C5.  The stored palette holds 65 triples (195 bytes), and for every
    batch the renderer's palette reads are all inside it: each colour
    index [i] it computes satisfies [0 <= 3*i] and [3*i + 2 < 195], index
    64 included, so the three reads [pal[3*i]], [pal[3*i+1]], [pal[3*i+2]]
    succeed and the batch's four pixels are written. *)
Theorem palette_reads_in_bounds hx hy cx4 cy4 :
  Z.of_nat (length pal) = 3 * 65 /\
  pal_rgb 64 = Some (92, 21, 4) /\
  (exists r,
     member4 cx4 cy4 = Some r /\
     forall l,
       let i := color_index (color_index4 r) l in
       0 <= i * 3 /\ i * 3 + 2 < Z.of_nat (length pal) /\
       exists rgb, pal_rgb i = Some rgb) /\
  exists ws, render_batch hx hy cx4 cy4 = Some ws /\ length ws = 4%nat.
Proof.
  split; [reflexivity|]. split; [reflexivity|].
  destruct (member4_returns cx4 cy4) as (r & Hr & Hl).
  assert (Hi : forall l, 0 <= color_index (color_index4 r) l <= 64)
    by (intros l; apply color_index_range, Hl).
  split.
  - exists r. split; [exact Hr|]. intros l i. subst i.
    specialize (Hi l). rewrite pal_length.
    repeat split; try lia. apply pal_rgb_in_bounds, Hi.
  - unfold render_batch. rewrite Hr. unfold write_lane.
    destruct (pal_rgb_in_bounds _ (Hi L0)) as [[[r0 g0] b0] ->].
    destruct (pal_rgb_in_bounds _ (Hi L1)) as [[[r1 g1] b1] ->].
    destruct (pal_rgb_in_bounds _ (Hi L2)) as [[[r2 g2] b2] ->].
    destruct (pal_rgb_in_bounds _ (Hi L3)) as [[[r3 g3] b3] ->].
    eexists; split; reflexivity.
Qed.

(** ** The zoom *)

(** In a zooming window the transition multiplies every delta and offset
    by [zoom_multiplier] and counts the depth up. *)
Lemma zoom_step_zooming w :
  depth w < MAX_DEPTH ->
  zoom_step w
  = ZoomState (vmap (fun d => mul d zoom_multiplier) (delta_x4 w))
              (mul (delta_y w) zoom_multiplier)
              (mul (y_offset w) zoom_multiplier)
              (vmap (fun o => mul o zoom_multiplier) (x_offset4 w))
              (depth w + 1).
Proof.
  intros H. unfold zoom_step.
  destruct (Z.ltb_spec (depth w) MAX_DEPTH); [reflexivity | lia].
Qed.

(** At full depth it changes nothing. *)
Lemma zoom_step_steady w : MAX_DEPTH <= depth w -> zoom_step w = w.
Proof.
  intros H. unfold zoom_step.
  destruct (Z.ltb_spec (depth w) MAX_DEPTH); [lia | reflexivity].
Qed.

Lemma frame_window_succ n : frame_window (S n) = zoom_step (frame_window n).
Proof. reflexivity. Qed.

Lemma frame_window_depth n :
  depth (frame_window n) = Z.min (Z.of_nat n) MAX_DEPTH.
Proof.
  induction n as [|n IH]; [reflexivity|].
  rewrite frame_window_succ. unfold zoom_step.
  destruct (Z.ltb_spec (depth (frame_window n)) MAX_DEPTH) as [H|H];
    cbn [depth]; lia.
Qed.

Lemma frame_window_steady n :
  (Z.to_nat MAX_DEPTH <= n)%nat ->
  frame_window n = frame_window (Z.to_nat MAX_DEPTH).
Proof.
  induction 1 as [|n Hn IH]; [reflexivity|].
  rewrite frame_window_succ, IH. apply zoom_step_steady.
  rewrite frame_window_depth. unfold MAX_DEPTH. lia.
Qed.

Lemma nat_range_forallb (P : nat -> bool) (n : nat) :
  forallb P (seq 0 n) = true -> forall i, (i < n)%nat -> P i = true.
Proof.
  intros H i Hi. rewrite forallb_forall in H. apply H, in_seq. lia.
Qed.

Lemma zooming_frames_near :
  forallb (fun n => all_near (zoom_components (zoom_step (frame_window n)))
                             (zoom_components (frame_window n)))
          (seq 0 (Z.to_nat MAX_DEPTH)) = true.
Proof. vm_compute. reflexivity. Qed.

Example first_zoom_step :
  delta_y (frame_window 0) = S754_finite false 12271335 (-31) /\
  delta_y (frame_window 1) = S754_finite false 11468537 (-31) /\
  depth (frame_window 1) = 1.
Proof. vm_compute. repeat split; reflexivity. Qed.

(** C8.  While frame [n] is one of the first [MAX_DEPTH] (the window is
    zooming), the transition after it raises the depth by one and takes
    every per-axis delta and offset to its product with
    [1.0f / ZOOM_FACTOR], which is its old value divided by [ZOOM_FACTOR]
    to within one part in [2^23].  From frame [MAX_DEPTH] on, the
    transition leaves the window as it is, and the window of every later
    frame is that of frame [MAX_DEPTH]. *)
Theorem zoom_progression (n : nat) :
  let w := frame_window n in
  (Z.of_nat n < MAX_DEPTH ->
     depth w = Z.of_nat n /\
     depth (zoom_step w) = depth w + 1 /\
     zoom_components (zoom_step w)
       = map (fun d => mul d zoom_multiplier) (zoom_components w) /\
     all_near (zoom_components (zoom_step w)) (zoom_components w) = true) /\
  (MAX_DEPTH <= Z.of_nat n ->
     depth w = MAX_DEPTH /\
     zoom_step w = w /\
     w = frame_window (Z.to_nat MAX_DEPTH)).
Proof.
  intros w. subst w. split; intros Hn.
  - assert (Hd : depth (frame_window n) = Z.of_nat n)
      by (rewrite frame_window_depth; lia).
    assert (Hlt : depth (frame_window n) < MAX_DEPTH) by lia.
    split; [exact Hd|].
    rewrite (zoom_step_zooming _ Hlt). split; [reflexivity|]. split; [reflexivity|].
    rewrite <- (zoom_step_zooming _ Hlt).
    apply (nat_range_forallb _ _ zooming_frames_near). lia.
  - assert (Hd : depth (frame_window n) = MAX_DEPTH)
      by (rewrite frame_window_depth; lia).
    split; [exact Hd|]. split.
    + apply zoom_step_steady. lia.
    + apply frame_window_steady. lia.
Qed.

(** * Further properties of the code *)

(** ** [member4]: what the count is *)

Lemma orbit_succ n cx cy :
  orbit (S n) cx cy
  = (next_x cx (fst (orbit n cx cy)) (snd (orbit n cx cy)),
     next_y cy (fst (orbit n cx cy)) (snd (orbit n cx cy))).
Proof. cbn [orbit]. destruct (orbit n cx cy); reflexivity. Qed.

(** From step [m] of the orbit with [b] passes left, the count is [n]
    plus the number of further steps that stay inside the limit. *)
Lemma lane_count_orbit b cx cy :
  forall m n,
  exists j,
    (j <= b)%nat /\
    lane_count b cx cy (fst (orbit m cx cy)) (snd (orbit m cx cy)) n
      = n + Z.of_nat j /\
    (forall i, (i < j)%nat -> inside (m + i) cx cy = true) /\
    ((j < b)%nat -> inside (m + j) cx cy = false).
Proof.
  induction b as [|b IH]; intros m n.
  - exists O. cbn [lane_count]. repeat split; try lia.
  - cbn [lane_count].
    destruct (below (fst (orbit m cx cy)) (snd (orbit m cx cy))) eqn:E.
    + destruct (IH (S m) (n + 1)) as (j & Hj & Hc & Hin & Hout).
      rewrite orbit_succ in Hc. cbn [fst snd] in Hc.
      exists (S j). repeat split.
      * lia.
      * rewrite Hc. lia.
      * intros [|i] Hi.
        -- rewrite Nat.add_0_r. exact E.
        -- replace (m + S i)%nat with (S m + i)%nat by lia. apply Hin. lia.
      * intros Hlt. replace (m + S j)%nat with (S m + j)%nat by lia.
        apply Hout. lia.
    + exists O. repeat split; try lia.
      intros _. rewrite Nat.add_0_r. exact E.
Qed.

(** X1.  For every batch, NaN and infinite coordinates included, the
    count [member4] returns for a lane is the index of the first point of
    the lane's orbit that fails the test [x*x + y*y < 4.0], or [MAX_ITS]
    when the first [MAX_ITS] points all pass it. *)
Theorem member4_first_exit cx4 cy4 l :
  exists r k,
    member4 cx4 cy4 = Some r /\
    signed32 (get r l) = Z.of_nat k /\
    (k <= Z.to_nat MAX_ITS)%nat /\
    (forall i, (i < k)%nat -> inside i (get cx4 l) (get cy4 l) = true) /\
    ((k < Z.to_nat MAX_ITS)%nat -> inside k (get cx4 l) (get cy4 l) = false).
Proof.
  destruct (lane_count_orbit (Z.to_nat MAX_ITS) (get cx4 l) (get cy4 l) 0 0)
    as (j & Hj & Hc & Hin & Hout).
  exists (lane_counts MAX_ITS cx4 cy4), j.
  split; [apply member4_counts|].
  rewrite lane_counts_signed by apply MAX_ITS_int.
  rewrite get_lane_counts. cbn [orbit fst snd] in Hc.
  repeat split; auto.
Qed.

(** X2.  A lane's count depends on that lane's point alone: two batches
    that hold the same point, in whatever lanes and with whatever else in
    the other lanes, get the same count for it. *)
Theorem member4_lane_independent cx4 cy4 cx4' cy4' l l' :
  get cx4 l = get cx4' l' -> get cy4 l = get cy4' l' ->
  exists r r',
    member4 cx4 cy4 = Some r /\ member4 cx4' cy4' = Some r' /\
    get r l = get r' l'.
Proof.
  intros Hx Hy.
  exists (lane_counts MAX_ITS cx4 cy4), (lane_counts MAX_ITS cx4' cy4').
  split; [apply member4_counts|]. split; [apply member4_counts|].
  rewrite !get_lane_counts, Hx, Hy. reflexivity.
Qed.

Lemma member4_lane_independent_witness :
  get sample_cx4 L2 = get (_mm_set1_ps (get sample_cx4 L2)) L0 /\
  get sample_cy4 L2 = get (_mm_set1_ps (get sample_cy4 L2)) L0 /\
  exists r r',
    member4 sample_cx4 sample_cy4 = Some r /\
    member4 (_mm_set1_ps (get sample_cx4 L2)) (_mm_set1_ps (get sample_cy4 L2))
      = Some r' /\
    get r L2 = get r' L0.
Proof.
  split; [reflexivity|]. split; [reflexivity|].
  apply (member4_lane_independent sample_cx4 sample_cy4
           (_mm_set1_ps (get sample_cx4 L2)) (_mm_set1_ps (get sample_cy4 L2))
           L2 L0); reflexivity.
Defined.

(** A smaller budget only cuts the count off. *)
Lemma lane_count_truncate b1 cx cy :
  forall b2 x y n,
    (b1 <= b2)%nat ->
    lane_count b1 cx cy x y n
    = Z.min (n + Z.of_nat b1) (lane_count b2 cx cy x y n).
Proof.
  induction b1 as [|b1 IH]; intros b2 x y n Hb.
  - cbn [lane_count]. pose proof (lane_count_range b2 cx cy x y n). lia.
  - destruct b2 as [|b2]; [lia|]. cbn [lane_count].
    destruct (below x y).
    + rewrite (IH b2) by lia. lia.
    + lia.
Qed.

(** X3.  The cap only truncates: run with a cap [m1] below [m2], the
    evaluator returns, lane by lane, the smaller of [m1] and the count it
    returns with cap [m2]. *)
Theorem member4_cap_truncates m1 m2 cx4 cy4 l :
  0 <= m1 <= m2 -> m2 < 2 ^ 31 ->
  exists r1 r2,
    member4_fuel m1 (Z.to_nat m1) cx4 cy4 = Some r1 /\
    member4_fuel m2 (Z.to_nat m2) cx4 cy4 = Some r2 /\
    signed32 (get r1 l) = Z.min m1 (signed32 (get r2 l)).
Proof.
  intros H1 H2.
  exists (lane_counts m1 cx4 cy4), (lane_counts m2 cx4 cy4).
  split; [apply member4_fuel_counts; lia|].
  split; [apply member4_fuel_counts; lia|].
  rewrite !lane_counts_signed by lia. rewrite !get_lane_counts.
  rewrite (lane_count_truncate (Z.to_nat m1) _ _ (Z.to_nat m2)) by lia.
  f_equal. lia.
Qed.

Lemma member4_cap_truncates_witness :
  0 <= 20 <= MAX_ITS /\ MAX_ITS < 2 ^ 31 /\
  exists r1 r2,
    member4_fuel 20 (Z.to_nat 20) sample_cx4 sample_cy4 = Some r1 /\
    member4_fuel MAX_ITS (Z.to_nat MAX_ITS) sample_cx4 sample_cy4 = Some r2 /\
    signed32 (get r1 L2) = Z.min 20 (signed32 (get r2 L2)).
Proof.
  assert (H1 : 0 <= 20 <= MAX_ITS) by (split; discriminate).
  assert (H2 : MAX_ITS < 2 ^ 31) by reflexivity.
  refine (conj H1 (conj H2 _)).
  apply (member4_cap_truncates 20 MAX_ITS sample_cx4 sample_cy4 L2 H1 H2).
Defined.

(** ** The colours the renderer writes *)

Lemma rgb_eqb_eq a b : rgb_eqb a b = true -> a = b.
Proof.
  destruct a as [[[r g] c]|], b as [[[r' g'] c']|]; cbn; try discriminate.
  intros H. apply andb_prop in H; destruct H as [H Hc].
  apply andb_prop in H; destruct H as [Hr Hg].
  apply Z.eqb_eq in Hr, Hg, Hc. subst. reflexivity.
Qed.

(** Entry [j + 1] of the stored table is entry [j mod 40] of the ramp. *)
Lemma pal_replicates_ramp j :
  0 <= j < 64 -> pal_rgb (j + 1) = ramp_color (j mod PAL_SIZE).
Proof.
  intros Hj. apply rgb_eqb_eq.
  apply (Z_range_forallb
           (fun j => rgb_eqb (pal_rgb (j + 1)) (ramp_color (j mod PAL_SIZE))) 64);
    [vm_compute; reflexivity | lia].
Qed.

(** Only entry 0 of the stored table is black. *)
Lemma pal_black_only_at_0 i :
  0 <= i <= 64 -> pal_rgb i = Some (0, 0, 0) -> i = 0.
Proof.
  intros Hi H.
  assert (Hc : (i =? 0) || negb (rgb_eqb (pal_rgb i) (Some (0, 0, 0))) = true).
  { apply (Z_range_forallb
             (fun i => (i =? 0) || negb (rgb_eqb (pal_rgb i) (Some (0, 0, 0)))) 65);
      [vm_compute; reflexivity | lia]. }
  rewrite H in Hc. cbn in Hc. rewrite orb_false_r in Hc.
  apply Z.eqb_eq, Hc.
Qed.

(** X4.  For every batch and lane, the colour the renderer reads for a
    count [k] below [MAX_ITS] is the ramp's entry [(k mod 64) mod 40]: the
    colours repeat with period 64, each period running through the 40
    ramp colours and then through the first 24 again. *)
Theorem color_is_ramp_mod_64_mod_40 cx4 cy4 l :
  exists r,
    member4 cx4 cy4 = Some r /\
    (signed32 (get r l) < MAX_ITS ->
       pal_rgb (color_index (color_index4 r) l)
       = ramp_color ((signed32 (get r l) mod 64) mod PAL_SIZE)).
Proof.
  destruct (member4_returns cx4 cy4) as (r & Hr & Hl).
  exists r. split; [exact Hr|].
  destruct (Hl l) as [Hk Hs]. rewrite Hs. intros Hlt.
  rewrite color_index_spec by exact Hk.
  destruct (Z.eqb_spec (get r l) MAX_ITS); [lia|].
  apply pal_replicates_ramp. apply Z.mod_pos_bound. lia.
Qed.

(** X5.  For every batch and lane, the renderer reads black, (0, 0, 0),
    exactly when the lane's count is [MAX_ITS], that is when the point did
    not leave the limit within the cap. *)
Theorem black_iff_not_escaped cx4 cy4 l :
  exists r,
    member4 cx4 cy4 = Some r /\
    (pal_rgb (color_index (color_index4 r) l) = Some (0, 0, 0)
     <-> signed32 (get r l) = MAX_ITS).
Proof.
  destruct (member4_returns cx4 cy4) as (r & Hr & Hl).
  exists r. split; [exact Hr|].
  destruct (Hl l) as [Hk Hs]. rewrite Hs.
  pose proof (color_index_range r l Hk) as Hi.
  rewrite color_index_spec in * by exact Hk.
  destruct (Z.eqb_spec (get r l) MAX_ITS) as [E|E]; split; intros H.
  - exact E.
  - reflexivity.
  - apply pal_black_only_at_0 in H; [|exact Hi].
    pose proof (Z.mod_pos_bound (get r l) 64 ltac:(lia)). lia.
  - contradiction.
Qed.

(** X6.  Whatever four 32-bit values [color_index4] is given, counts of
    the evaluator or not, each index it yields is in [0, 64] and its three
    palette bytes are inside [pal]. *)
Theorem color_index4_always_in_bounds u l :
  0 <= get u l < 2 ^ 32 ->
  0 <= color_index (color_index4 u) l <= 64 /\
  exists rgb, pal_rgb (color_index (color_index4 u) l) = Some rgb.
Proof.
  intros Hu.
  assert (Hi : 0 <= color_index (color_index4 u) l <= 64).
  { unfold color_index. rewrite get_color_index4, lane_color_spec by exact Hu.
    pose proof (Z.mod_pos_bound (get u l) 64 ltac:(lia)) as Hm.
    assert (H31 : 2 ^ 31 = 2147483648) by reflexivity.
    rewrite signed32_small; destruct (get u l =? MAX_ITS); lia. }
  split; [exact Hi | apply pal_rgb_in_bounds, Hi].
Qed.

Lemma color_index4_always_in_bounds_witness :
  0 <= get (Vec 0xFFFFFFFF 0 0 0) L0 < 2 ^ 32 /\
  0 <= color_index (color_index4 (Vec 0xFFFFFFFF 0 0 0)) L0 <= 64 /\
  exists rgb, pal_rgb (color_index (color_index4 (Vec 0xFFFFFFFF 0 0 0)) L0)
              = Some rgb.
Proof.
  assert (H : 0 <= get (Vec 0xFFFFFFFF 0 0 0) L0 < 2 ^ 32)
    by (split; [discriminate | reflexivity]).
  split; [exact H|].
  apply (color_index4_always_in_bounds (Vec 0xFFFFFFFF 0 0 0) L0 H).
Defined.

(** ** [putpixel] *)

Lemma int_of_small z : - 2 ^ 31 <= z < 2 ^ 31 -> 0 <= z -> int_of z = z.
Proof.
  intros H H0. unfold int_of.
  assert (H32 : 2 ^ 32 = 4294967296) by reflexivity.
  assert (H31 : 2 ^ 31 = 2147483648) by reflexivity.
  rewrite wrap32_small by lia. apply signed32_small. lia.
Qed.

Lemma pixel_word_bytes r g b :
  0 <= r < 256 -> 0 <= g < 256 -> 0 <= b < 256 ->
  pixel_word r g b = r * 65536 + g * 256 + b.
Proof.
  intros Hr Hg Hb. unfold pixel_word.
  assert (H32 : 2 ^ 32 = 4294967296) by reflexivity.
  assert (H31 : 2 ^ 31 = 2147483648) by reflexivity.
  rewrite !Z.shiftl_mul_pow2 by lia.
  change (2 ^ 16) with 65536. change (2 ^ 8) with 256.
  rewrite (int_of_small (r * 65536)) by lia.
  rewrite (int_of_small (g * 256)) by lia.
  rewrite int_of_small by lia.
  apply wrap32_small. lia.
Qed.

(** X7.  For colour bytes, the word [putpixel] stores keeps the three
    bytes apart: red in bits 16-23, green in bits 8-15, blue in bits 0-7,
    nothing above bit 23; so different colours are stored as different
    words. *)
Theorem pixel_word_keeps_bytes r g b :
  0 <= r < 256 -> 0 <= g < 256 -> 0 <= b < 256 ->
  word_rgb (pixel_word r g b) = (r, g, b) /\
  0 <= pixel_word r g b < 2 ^ 24 /\
  forall r' g' b',
    0 <= r' < 256 -> 0 <= g' < 256 -> 0 <= b' < 256 ->
    pixel_word r' g' b' = pixel_word r g b -> (r', g', b') = (r, g, b).
Proof.
  intros Hr Hg Hb.
  assert (Hdec : forall r g b,
             0 <= r < 256 -> 0 <= g < 256 -> 0 <= b < 256 ->
             word_rgb (pixel_word r g b) = (r, g, b)).
  { clear. intros r g b Hr Hg Hb. rewrite pixel_word_bytes by assumption.
    unfold word_rgb. change 0xFF with (Z.ones 8).
    rewrite !Z.land_ones, !Z.shiftr_div_pow2 by lia.
    change (2 ^ 16) with 65536. change (2 ^ 8) with 256.
    repeat f_equal; Z.div_mod_to_equations; lia. }
  split; [apply Hdec; assumption|]. split.
  - rewrite pixel_word_bytes by assumption. change (2 ^ 24) with 16777216. lia.
  - intros r' g' b' Hr' Hg' Hb' E.
    rewrite <- (Hdec r' g' b'), <- (Hdec r g b) by assumption.
    rewrite E. reflexivity.
Qed.

Lemma pixel_word_keeps_bytes_witness :
  0 <= 255 < 256 /\ 0 <= 180 < 256 /\ 0 <= 4 < 256 /\
  word_rgb (pixel_word 255 180 4) = (255, 180, 4) /\
  0 <= pixel_word 255 180 4 < 2 ^ 24 /\
  forall r' g' b',
    0 <= r' < 256 -> 0 <= g' < 256 -> 0 <= b' < 256 ->
    pixel_word r' g' b' = pixel_word 255 180 4 -> (r', g', b') = (255, 180, 4).
Proof.
  assert (H1 : 0 <= 255 < 256) by lia.
  assert (H2 : 0 <= 180 < 256) by lia.
  assert (H3 : 0 <= 4 < 256) by lia.
  refine (conj H1 (conj H2 (conj H3 _))).
  apply (pixel_word_keeps_bytes 255 180 4 H1 H2 H3).
Defined.

Lemma set_at_length i v l : length (set_at i v l) = length l.
Proof.
  revert i; induction l as [|h t IH]; intros [|i]; cbn; auto.
Qed.

Lemma nth_set_at_same i v l d : (i < length l)%nat -> nth i (set_at i v l) d = v.
Proof.
  revert i; induction l as [|h t IH]; intros [|i] H; cbn in *; try lia; auto.
  apply IH. lia.
Qed.

Lemma nth_set_at_other i j v l d : i <> j -> nth j (set_at i v l) d = nth j l d.
Proof.
  revert i j; induction l as [|h t IH]; intros [|i] [|j] H; cbn; auto;
    contradiction.
Qed.

(** Within lines of [stride] words, a cell belongs to one pixel only. *)
Lemma cell_injective stride x y x' y' :
  0 <= x < stride -> 0 <= x' < stride ->
  y' * stride + x' = y * stride + x -> x' = x /\ y' = y.
Proof.
  intros Hx Hx' E.
  assert (Hy : y' = y).
  { destruct (Z.lt_trichotomy y' y) as [L|[Eq|G]]; [exfalso|exact Eq|exfalso].
    - assert ((y' + 1) * stride <= y * stride)
        by (apply Z.mul_le_mono_nonneg_r; lia).
      lia.
    - assert ((y + 1) * stride <= y' * stride)
        by (apply Z.mul_le_mono_nonneg_r; lia).
      lia. }
  subst y'. lia.
Qed.

(** The cell of a pixel inside a surface whose lines hold [stride] words. *)
Lemma pixel_cell_inside s x y :
  let stride := Z.shiftr (pitch s) 2 in
  0 <= x < stride -> 0 <= y ->
  y * stride + x < Z.of_nat (length (pixels s)) ->
  Z.of_nat (length (pixels s)) < 2 ^ 31 ->
  pixel_cell s x y = y * stride + x.
Proof.
  intros stride Hx Hy Hlen H31. unfold pixel_cell. fold stride.
  assert (0 <= y * stride) by nia.
  rewrite (int_of_small (y * stride)) by lia.
  apply int_of_small; lia.
Qed.

(** X8.  On a surface whose lines hold [stride = pitch >> 2] words and
    whose buffer has fewer than [2^31] words, [putpixel] at a pixel with
    [0 <= x < stride], [0 <= y] and [y * stride + x] inside the buffer
    stores its word in cell [y * stride + x] and leaves the pitch, the
    buffer's length and every other cell as they were; two such pixels
    share a cell only when they are the same pixel. *)
Theorem putpixel_one_cell s x y r g b :
  let stride := Z.shiftr (pitch s) 2 in
  0 <= x < stride -> 0 <= y ->
  y * stride + x < Z.of_nat (length (pixels s)) ->
  Z.of_nat (length (pixels s)) < 2 ^ 31 ->
  exists s',
    putpixel s x y r g b = Some s' /\
    pitch s' = pitch s /\
    length (pixels s') = length (pixels s) /\
    nth (Z.to_nat (y * stride + x)) (pixels s') 0 = pixel_word r g b /\
    (forall i, i <> Z.to_nat (y * stride + x) ->
       nth i (pixels s') 0 = nth i (pixels s) 0) /\
    (forall x' y', 0 <= x' < stride -> 0 <= y' ->
       y' * stride + x' = y * stride + x -> x' = x /\ y' = y).
Proof.
  intros stride Hx Hy Hlen H31.
  pose proof (pixel_cell_inside s x y Hx Hy Hlen H31) as Hc. fold stride in Hc.
  assert (0 <= y * stride) by nia.
  unfold putpixel. rewrite Hc.
  destruct (Z.leb_spec 0 (y * stride + x)); [|lia].
  destruct (Z.ltb_spec (y * stride + x) (Z.of_nat (length (pixels s)))); [|lia].
  cbn [andb]. eexists. split; [reflexivity|]. cbn [pitch pixels].
  split; [reflexivity|]. split; [apply set_at_length|]. split.
  - apply nth_set_at_same. lia.
  - split.
    + intros i Hi. apply nth_set_at_other. congruence.
    + intros x' y' Hx' Hy' E. apply (cell_injective stride); assumption.
Qed.

Lemma putpixel_one_cell_witness :
  0 <= 3 < Z.shiftr (pitch small_surface) 2 /\ 0 <= 2 /\
  2 * Z.shiftr (pitch small_surface) 2 + 3
    < Z.of_nat (length (pixels small_surface)) /\
  Z.of_nat (length (pixels small_surface)) < 2 ^ 31 /\
  exists s',
    putpixel small_surface 3 2 255 180 4 = Some s' /\
    pitch s' = pitch small_surface /\
    length (pixels s') = length (pixels small_surface) /\
    nth (Z.to_nat (2 * Z.shiftr (pitch small_surface) 2 + 3)) (pixels s') 0
    = pixel_word 255 180 4 /\
    (forall i, i <> Z.to_nat (2 * Z.shiftr (pitch small_surface) 2 + 3) ->
       nth i (pixels s') 0 = nth i (pixels small_surface) 0) /\
    (forall x' y', 0 <= x' < Z.shiftr (pitch small_surface) 2 -> 0 <= y' ->
       y' * Z.shiftr (pitch small_surface) 2 + x'
       = 2 * Z.shiftr (pitch small_surface) 2 + 3 -> x' = 3 /\ y' = 2).
Proof.
  assert (H1 : 0 <= 3 < Z.shiftr (pitch small_surface) 2)
    by (split; [discriminate | reflexivity]).
  assert (H2 : 0 <= 2) by discriminate.
  assert (H3 : 2 * Z.shiftr (pitch small_surface) 2 + 3
               < Z.of_nat (length (pixels small_surface))) by reflexivity.
  assert (H4 : Z.of_nat (length (pixels small_surface)) < 2 ^ 31) by reflexivity.
  refine (conj H1 (conj H2 (conj H3 (conj H4 _)))).
  apply (putpixel_one_cell small_surface 3 2 255 180 4 H1 H2 H3 H4).
Defined.

(** ** The [putpixel] calls of a row and of a frame *)

Lemma render_batch_writes hx hy x4 y4 :
  exists r c0 c1 c2 c3,
    member4 x4 y4 = Some r /\
    pal_rgb (color_index (color_index4 r) L0) = Some c0 /\
    pal_rgb (color_index (color_index4 r) L1) = Some c1 /\
    pal_rgb (color_index (color_index4 r) L2) = Some c2 /\
    pal_rgb (color_index (color_index4 r) L3) = Some c3 /\
    render_batch hx hy x4 y4
    = Some [write_of (hx + 0) hy c0; write_of (hx + 1) hy c1;
            write_of (hx + 2) hy c2; write_of (hx + 3) hy c3].
Proof.
  destruct (member4_returns x4 y4) as (r & Hr & Hl).
  assert (Hi : forall l, 0 <= color_index (color_index4 r) l <= 64)
    by (intros l; apply color_index_range, Hl).
  destruct (pal_rgb_in_bounds _ (Hi L0)) as [c0 H0].
  destruct (pal_rgb_in_bounds _ (Hi L1)) as [c1 H1].
  destruct (pal_rgb_in_bounds _ (Hi L2)) as [c2 H2].
  destruct (pal_rgb_in_bounds _ (Hi L3)) as [c3 H3].
  exists r, c0, c1, c2, c3. repeat (split; [assumption|]).
  unfold render_batch, write_lane. rewrite Hr, H0, H1, H2, H3.
  destruct c0 as [[? ?] ?], c1 as [[? ?] ?], c2 as [[? ?] ?], c3 as [[? ?] ?].
  reflexivity.
Qed.

Lemma batch_pixel b j :
  0 <= j < 4 ->
  (4 * Z.of_nat b + j) / 4 = Z.of_nat b /\ (4 * Z.of_nat b + j) mod 4 = j.
Proof. intros Hj. Z.div_mod_to_equations. lia. Qed.

Lemma write_of_carries w b hy j l c :
  0 <= j < 4 -> lane_of_Z j = l ->
  forall r,
    batch_iterations w b hy = Some r ->
    pal_rgb (color_index (color_index4 r) l) = Some c ->
    carries_own_color w (write_of (4 * Z.of_nat b + j) hy c).
Proof.
  intros Hj Hl r Hr Hc. destruct c as [[cr cg] cb].
  unfold carries_own_color, write_of, pixel_rgb; cbn [px py red green blue].
  destruct (batch_pixel b j Hj) as [-> ->].
  rewrite Nat2Z.id, Hr, Hl. exact Hc.
Qed.

Lemma position_write_of x y c : position (write_of x y c) = (x, y).
Proof. destruct c as [[? ?] ?]. reflexivity. Qed.

(** The batches [start .. start + n - 1] of a row. *)
Lemma row_gather w hy n :
  forall start,
  exists ws,
    gather (map (fun b => render_batch (4 * Z.of_nat b) hy
                            (row_x4 w b) (row_y4 w hy))
                (seq start n)) = Some ws /\
    map position ws = map (fun x => (Z.of_nat x, hy)) (seq (4 * start) (4 * n)) /\
    Forall (carries_own_color w) ws.
Proof.
  induction n as [|n IH]; intros start.
  - exists []. rewrite Nat.mul_0_r. repeat split; constructor.
  - destruct (IH (S start)) as (ws & Hg & Hp & Hc).
    destruct (render_batch_writes (4 * Z.of_nat start) hy
                (row_x4 w start) (row_y4 w hy))
      as (r & c0 & c1 & c2 & c3 & Hr & H0 & H1 & H2 & H3 & Hb).
    eexists. cbn [seq map gather]. rewrite Hb, Hg. cbn [option_map app].
    split; [reflexivity|]. split.
    + replace (4 * S n)%nat with (S (S (S (S (4 * n))))) by lia.
      cbn [seq map]. rewrite !position_write_of, Hp.
      replace (S (S (S (S (4 * start))))) with (4 * S start)%nat by lia.
      repeat f_equal; lia.
    + repeat constructor; try exact Hc.
      * apply (write_of_carries w start hy 0 L0 c0 ltac:(lia) eq_refl r Hr H0).
      * apply (write_of_carries w start hy 1 L1 c1 ltac:(lia) eq_refl r Hr H1).
      * apply (write_of_carries w start hy 2 L2 c2 ltac:(lia) eq_refl r Hr H2).
      * apply (write_of_carries w start hy 3 L3 c3 ltac:(lia) eq_refl r Hr H3).
Qed.

Lemma row_writes_cover w hy :
  exists ws,
    row_writes w hy = Some ws /\
    map position ws = map (fun x => (Z.of_nat x, hy)) (seq 0 (Z.to_nat X_RES)) /\
    Forall (carries_own_color w) ws.
Proof.
  destruct (row_gather w hy (Z.to_nat (X_RES / 4)) 0) as (ws & Hg & Hp & Hc).
  exists ws. split; [exact Hg|]. split; [|exact Hc].
  rewrite Hp. reflexivity.
Qed.

(** X9.  In every window, a row's [putpixel] calls are exactly one call
    for each of the pixels [(0, hy)], [(1, hy)], ..., [(X_RES - 1, hy)],
    in that order, and each call carries the palette colour of the pixel
    it addresses: four-pixel batches leave no pixel of the row out and
    write none twice. *)
Theorem row_writes_cover_row w hy :
  exists ws,
    row_writes w hy = Some ws /\
    map position ws = map (fun x => (Z.of_nat x, hy)) (seq 0 (Z.to_nat X_RES)) /\
    Forall (carries_own_color w) ws /\
    length ws = Z.to_nat X_RES.
Proof.
  destruct (row_writes_cover w hy) as (ws & Hg & Hp & Hc).
  exists ws. repeat (split; [assumption|]).
  rewrite <- (length_map position), Hp, length_map. apply length_seq.
Qed.

(** ** Sequences of [putpixel] calls *)

Lemma write_cell_pitch s s' p :
  pitch s' = pitch s -> write_cell s' p = write_cell s p.
Proof. intros H. unfold write_cell, pixel_cell. rewrite H. reflexivity. Qed.

Lemma do_write_inside s p :
  0 <= write_cell s p < Z.of_nat (length (pixels s)) ->
  do_write s p
  = Some (Surface (pitch s)
            (set_at (Z.to_nat (write_cell s p)) (write_word p) (pixels s))).
Proof.
  intros H. unfold do_write, putpixel. fold (write_cell s p).
  destruct (Z.leb_spec 0 (write_cell s p)); [|lia].
  destruct (Z.ltb_spec (write_cell s p) (Z.of_nat (length (pixels s)))); [|lia].
  reflexivity.
Qed.

(** Calls that stay inside the buffer and hit pairwise different cells:
    each cell hit holds the word of its call, all others are untouched. *)
Lemma do_writes_spec ps :
  forall s,
    (forall p, In p ps -> 0 <= write_cell s p < Z.of_nat (length (pixels s))) ->
    NoDup (map (write_cell s) ps) ->
    exists s',
      do_writes ps s = Some s' /\
      pitch s' = pitch s /\
      length (pixels s') = length (pixels s) /\
      (forall p, In p ps ->
         nth (Z.to_nat (write_cell s p)) (pixels s') 0 = write_word p) /\
      (forall i, (forall p, In p ps -> Z.to_nat (write_cell s p) <> i) ->
         nth i (pixels s') 0 = nth i (pixels s) 0).
Proof.
  induction ps as [|p ps IH]; intros s Hin Hnd.
  - exists s. cbn. repeat split; auto. intros p [].
  - cbn [map] in Hnd. inversion Hnd as [|c cs Hnotin Hnd']; subst.
    pose proof (Hin p (or_introl eq_refl)) as Hp.
    set (s1 := Surface (pitch s)
                 (set_at (Z.to_nat (write_cell s p)) (write_word p) (pixels s))).
    assert (Hpitch : pitch s1 = pitch s) by reflexivity.
    assert (Hlen : length (pixels s1) = length (pixels s))
      by apply set_at_length.
    assert (Hcells : map (write_cell s1) ps = map (write_cell s) ps)
      by (apply map_ext; intros q; apply write_cell_pitch, Hpitch).
    destruct (IH s1) as (s' & Hrun & Hpi & Hle & Hhit & Hmiss).
    { intros q Hq. rewrite (write_cell_pitch s s1 q Hpitch), Hlen.
      apply Hin. right; exact Hq. }
    { rewrite Hcells. exact Hnd'. }
    exists s'. cbn [do_writes]. rewrite do_write_inside by exact Hp. fold s1.
    split; [exact Hrun|]. split; [congruence|]. split; [congruence|]. split.
    + intros q [<-|Hq].
      * rewrite Hmiss.
        -- apply nth_set_at_same. lia.
        -- intros q Hq E. apply Hnotin.
           rewrite (write_cell_pitch s s1 q Hpitch) in E.
           pose proof (Hin q (or_intror Hq)) as Hqr.
           replace (write_cell s p) with (write_cell s q) by lia.
           apply in_map, Hq.
      * rewrite <- (write_cell_pitch s s1 q Hpitch). apply Hhit, Hq.
    + intros i Hi. rewrite Hmiss.
      * apply nth_set_at_other. apply Hi. left; reflexivity.
      * intros q Hq. rewrite (write_cell_pitch s s1 q Hpitch).
        apply Hi. right; exact Hq.
Qed.

Lemma surface_ext s s' :
  pitch s = pitch s' -> pixels s = pixels s' -> s = s'.
Proof. destruct s, s'; cbn; intros; subst; reflexivity. Qed.

(** Such calls may be made in any order. *)
Lemma do_writes_any_order ps ps' s :
  (forall p, In p ps -> 0 <= write_cell s p < Z.of_nat (length (pixels s))) ->
  NoDup (map (write_cell s) ps) ->
  Permutation ps ps' ->
  do_writes ps' s = do_writes ps s.
Proof.
  intros Hin Hnd Hperm.
  destruct (do_writes_spec ps s Hin Hnd) as (s1 & -> & Hp1 & Hl1 & Hhit1 & Hmiss1).
  destruct (do_writes_spec ps' s) as (s2 & -> & Hp2 & Hl2 & Hhit2 & Hmiss2).
  { intros p Hp. apply Hin.
    apply (Permutation_in p (Permutation_sym Hperm) Hp). }
  { apply (Permutation_NoDup
             (Permutation_map (write_cell s) Hperm) Hnd). }
  f_equal. apply surface_ext; [congruence|].
  apply (nth_ext _ _ 0 0); [congruence|].
  intros i Hi.
  destruct (in_dec Z.eq_dec (Z.of_nat i) (map (write_cell s) ps)) as [Hc|Hc].
  - apply in_map_iff in Hc. destruct Hc as (p & Hpc & Hp).
    replace i with (Z.to_nat (write_cell s p)) by lia.
    rewrite Hhit1 by exact Hp.
    apply Hhit2, (Permutation_in p Hperm Hp).
  - assert (Hno : forall p, In p ps -> Z.to_nat (write_cell s p) <> i).
    { intros p Hp E. apply Hc. apply in_map_iff. exists p. split; [|exact Hp].
      pose proof (Hin p Hp). lia. }
    rewrite Hmiss1 by exact Hno.
    apply Hmiss2. intros p Hp. apply Hno.
    apply (Permutation_in p (Permutation_sym Hperm) Hp).
Qed.

(** ** The frame as a whole *)

Lemma gather_app {A} (a : list A) l ws :
  gather l = Some ws -> gather (Some a :: l) = Some (a ++ ws).
Proof. intros H. cbn [gather]. rewrite H. reflexivity. Qed.

(** Rows that each give their calls give, gathered, the calls of all. *)
Lemma gather_rows {A B} (f : nat -> option (list A)) (pos : A -> B)
      (g : nat -> list B) (P : A -> Prop) :
  (forall y, exists row, f y = Some row /\ map pos row = g y /\ Forall P row) ->
  forall l,
  exists ws,
    gather (map f l) = Some ws /\ map pos ws = flat_map g l /\ Forall P ws.
Proof.
  intros Hrow. induction l as [|y l IH].
  - exists []. repeat split; constructor.
  - destruct IH as (ws & Hg & Hp & Hc).
    destruct (Hrow y) as (row & Hr & Hrp & Hrc).
    exists (row ++ ws). cbn [map flat_map]. rewrite Hr.
    split; [apply gather_app, Hg|]. split.
    + rewrite map_app, Hrp, Hp. reflexivity.
    + apply Forall_app. split; assumption.
Qed.

Lemma frame_writes_viewport w :
  exists ws,
    frame_writes w = Some ws /\
    map position ws = viewport /\
    Forall (carries_own_color w) ws.
Proof.
  unfold frame_writes, render_frame, viewport. rewrite map_map.
  rewrite (map_ext _ (fun hy => row_writes w (Z.of_nat hy)))
    by (intros hy; unfold row_writes; reflexivity).
  apply (gather_rows (fun hy => row_writes w (Z.of_nat hy)) position
           (fun y => map (fun x => (Z.of_nat x, Z.of_nat y))
                         (seq 0 (Z.to_nat X_RES)))
           (carries_own_color w)).
  intros y. exact (row_writes_cover w (Z.of_nat y)).
Qed.

Lemma in_viewport x y :
  In (x, y) viewport <-> 0 <= x < X_RES /\ 0 <= y < Y_RES.
Proof.
  unfold viewport. rewrite in_flat_map. split.
  - intros (ny & Hy & Hx). apply in_map_iff in Hx.
    destruct Hx as (nx & E & Hx). apply in_seq in Hx, Hy.
    inversion E; subst. unfold X_RES, Y_RES in *. lia.
  - intros [Hx Hy]. exists (Z.to_nat y). split.
    + apply in_seq. unfold Y_RES in *. lia.
    + apply in_map_iff. exists (Z.to_nat x). split.
      * f_equal; lia.
      * apply in_seq. unfold X_RES in *. lia.
Qed.

Lemma NoDup_flat_map {A B} (g : A -> list B) l :
  NoDup l -> (forall y, NoDup (g y)) ->
  (forall y y' a, In a (g y) -> In a (g y') -> y = y') ->
  NoDup (flat_map g l).
Proof.
  intros Hl Hg Hsep. induction Hl as [|y l Hy Hl IH]; cbn [flat_map].
  - constructor.
  - apply NoDup_app; [apply Hg | exact IH |].
    intros a Ha Hin. apply in_flat_map in Hin. destruct Hin as (y' & Hy' & Ha').
    rewrite (Hsep y y' a Ha Ha') in Hy. contradiction.
Qed.

Lemma viewport_NoDup : NoDup viewport.
Proof.
  unfold viewport. apply NoDup_flat_map.
  - apply seq_NoDup.
  - intros y. apply NoDup_map_NoDup_ForallPairs; [|apply seq_NoDup].
    intros a b _ _ E. inversion E. lia.
  - intros y y' a Ha Ha'. apply in_map_iff in Ha, Ha'.
    destruct Ha as (x & <- & _), Ha' as (x' & E & _). inversion E. lia.
Qed.

(** On a surface that holds the viewport, the cell of a viewport pixel. *)
Lemma viewport_cell s x y :
  holds_viewport s -> 0 <= x < X_RES -> 0 <= y < Y_RES ->
  pixel_cell s x y = y * Z.shiftr (pitch s) 2 + x /\
  0 <= pixel_cell s x y < Z.of_nat (length (pixels s)).
Proof.
  intros (Hs & Hl & H31) Hx Hy.
  set (stride := Z.shiftr (pitch s) 2) in *.
  assert (H0 : 0 <= y * stride) by (unfold X_RES in *; nia).
  assert (H1 : (y + 1) * stride <= Y_RES * stride)
    by (apply Z.mul_le_mono_nonneg_r; unfold X_RES in *; lia).
  assert (Hc : pixel_cell s x y = y * stride + x)
    by (apply pixel_cell_inside; fold stride; lia).
  rewrite Hc. split; [reflexivity | lia].
Qed.

Lemma viewport_cells_NoDup s :
  holds_viewport s -> NoDup (map (position_cell s) viewport).
Proof.
  intros Hs. apply NoDup_map_NoDup_ForallPairs; [|apply viewport_NoDup].
  intros [x y] [x' y'] Ha Hb E.
  apply in_viewport in Ha, Hb. unfold position_cell in E; cbn [fst snd] in E.
  destruct (viewport_cell s x y Hs) as [Ec _]; try tauto.
  destruct (viewport_cell s x' y' Hs) as [Ec' _]; try tauto.
  rewrite Ec, Ec' in E. destruct Hs as (Hst & _ & _).
  destruct (cell_injective (Z.shiftr (pitch s) 2) x' y' x y) as [-> ->];
    try lia. reflexivity.
Qed.

(** Everything about a frame drawn on a surface that holds the viewport. *)
Lemma frame_on_surface w s :
  holds_viewport s ->
  exists ws s',
    frame_writes w = Some ws /\
    map position ws = viewport /\
    Forall (carries_own_color w) ws /\
    (forall p, In p ws -> 0 <= write_cell s p < Z.of_nat (length (pixels s))) /\
    NoDup (map (write_cell s) ws) /\
    do_writes ws s = Some s' /\
    pitch s' = pitch s /\
    length (pixels s') = length (pixels s) /\
    (forall p, In p ws ->
       nth (Z.to_nat (write_cell s p)) (pixels s') 0 = write_word p) /\
    (forall i, (forall p, In p ws -> Z.to_nat (write_cell s p) <> i) ->
       nth i (pixels s') 0 = nth i (pixels s) 0).
Proof.
  intros Hs.
  destruct (frame_writes_viewport w) as (ws & Hw & Hp & Hc).
  assert (Hcell : map (write_cell s) ws = map (position_cell s) viewport).
  { rewrite <- Hp, map_map. reflexivity. }
  assert (Hin : forall p, In p ws ->
                  0 <= write_cell s p < Z.of_nat (length (pixels s))).
  { intros p Hpin.
    assert (Hv : In (px p, py p) viewport)
      by (rewrite <- Hp; apply (in_map position), Hpin).
    apply in_viewport in Hv.
    apply (viewport_cell s (px p) (py p) Hs); tauto. }
  assert (Hnd : NoDup (map (write_cell s) ws))
    by (rewrite Hcell; apply viewport_cells_NoDup, Hs).
  destruct (do_writes_spec ws s Hin Hnd) as (s' & Hrun & Hpi & Hle & Hhit & Hmiss).
  exists ws, s'. repeat (split; [assumption|]). assumption.
Qed.

Lemma sample_surface_holds_viewport : holds_viewport sample_surface.
Proof.
  unfold holds_viewport, sample_surface; cbn [pitch pixels].
  rewrite repeat_length, Z2Nat.id by discriminate.
  repeat split; try discriminate; reflexivity.
Qed.

(** X10.  On a surface that holds the viewport, the [putpixel] calls of a
    frame address every pixel of the viewport once, all stay inside the
    buffer and no two of them store to the same cell; so whatever the
    order in which the calls are made, rows interleaved or not, the
    surface they leave is the same. *)
Theorem frame_writes_any_order w s :
  holds_viewport s ->
  exists ws s',
    frame_writes w = Some ws /\
    map position ws = viewport /\
    NoDup (map (write_cell s) ws) /\
    do_writes ws s = Some s' /\
    forall ws', Permutation ws ws' -> do_writes ws' s = Some s'.
Proof.
  intros Hs.
  destruct (frame_on_surface w s Hs)
    as (ws & s' & Hw & Hp & _ & Hin & Hnd & Hrun & _).
  exists ws, s'. repeat (split; [assumption|]).
  intros ws' Hperm. rewrite <- Hrun.
  apply do_writes_any_order; assumption.
Qed.

Lemma frame_writes_any_order_witness :
  holds_viewport sample_surface /\
  exists ws s',
    frame_writes zoom_init = Some ws /\
    map position ws = viewport /\
    NoDup (map (write_cell sample_surface) ws) /\
    do_writes ws sample_surface = Some s' /\
    forall ws', Permutation ws ws' -> do_writes ws' sample_surface = Some s'.
Proof.
  split; [exact sample_surface_holds_viewport|].
  apply (frame_writes_any_order zoom_init sample_surface
           sample_surface_holds_viewport).
Defined.

(** X11.  On a surface that holds the viewport, a frame leaves in the
    cell of every viewport pixel [(x, y)], cell [y * (pitch >> 2) + x],
    the packed palette colour of that pixel's own point, and leaves the
    pitch, the buffer's length and every cell outside the viewport (line
    padding, further lines) as they were. *)
Theorem frame_fills_viewport w s :
  holds_viewport s ->
  exists ws s',
    frame_writes w = Some ws /\
    do_writes ws s = Some s' /\
    pitch s' = pitch s /\
    length (pixels s') = length (pixels s) /\
    (forall x y, 0 <= x < X_RES -> 0 <= y < Y_RES ->
       exists r g b,
         pixel_rgb w x y = Some (r, g, b) /\
         nth (Z.to_nat (y * Z.shiftr (pitch s) 2 + x)) (pixels s') 0
         = pixel_word r g b) /\
    (forall i,
       (forall x y, 0 <= x < X_RES -> 0 <= y < Y_RES ->
          Z.to_nat (y * Z.shiftr (pitch s) 2 + x) <> i) ->
       nth i (pixels s') 0 = nth i (pixels s) 0).
Proof.
  intros Hs.
  destruct (frame_on_surface w s Hs)
    as (ws & s' & Hw & Hp & Hc & Hin & Hnd & Hrun & Hpi & Hle & Hhit & Hmiss).
  exists ws, s'. repeat (split; [assumption|]). split.
  - intros x y Hx Hy.
    assert (Hv : In (x, y) (map position ws))
      by (rewrite Hp; apply in_viewport; tauto).
    apply in_map_iff in Hv. destruct Hv as (p & Epos & Hpin).
    unfold position in Epos. injection Epos as Ex Ey. subst x y.
    rewrite Forall_forall in Hc. pose proof (Hc p Hpin) as Hcol.
    exists (red p), (green p), (blue p). split; [exact Hcol|].
    destruct (viewport_cell s (px p) (py p) Hs Hx Hy) as [Ecell _].
    rewrite <- Ecell. exact (Hhit p Hpin).
  - intros i Hi. apply Hmiss. intros p Hpin.
    assert (Hv : In (px p, py p) viewport)
      by (rewrite <- Hp; apply (in_map position), Hpin).
    apply in_viewport in Hv. destruct Hv as [Hx Hy].
    destruct (viewport_cell s (px p) (py p) Hs Hx Hy) as [Ecell _].
    unfold write_cell. rewrite Ecell. apply Hi; assumption.
Qed.

Lemma frame_fills_viewport_witness :
  holds_viewport sample_surface /\
  exists ws s',
    frame_writes zoom_init = Some ws /\
    do_writes ws sample_surface = Some s' /\
    pitch s' = pitch sample_surface /\
    length (pixels s') = length (pixels sample_surface) /\
    (forall x y, 0 <= x < X_RES -> 0 <= y < Y_RES ->
       exists r g b,
         pixel_rgb zoom_init x y = Some (r, g, b) /\
         nth (Z.to_nat (y * Z.shiftr (pitch sample_surface) 2 + x)) (pixels s') 0
         = pixel_word r g b) /\
    (forall i,
       (forall x y, 0 <= x < X_RES -> 0 <= y < Y_RES ->
          Z.to_nat (y * Z.shiftr (pitch sample_surface) 2 + x) <> i) ->
       nth i (pixels s') 0 = nth i (pixels sample_surface) 0).
Proof.
  split; [exact sample_surface_holds_viewport|].
  apply (frame_fills_viewport zoom_init sample_surface
           sample_surface_holds_viewport).
Defined.

(** ** The points of the frames *)

Lemma xs_from_row w n :
  forall b, xs_from w n (row_x4 w b)
            = flat_map (fun b' => lanes (row_x4 w b')) (seq b n).
Proof.
  induction n as [|n IH]; intros b; [reflexivity|].
  cbn [xs_from seq flat_map]. f_equal. apply (IH (S b)).
Qed.

Lemma frames_increasing :
  forallb (fun n => increasing (xs_from (frame_window n)
                                  (Z.to_nat (X_RES / 4))
                                  (row_x4 (frame_window n) 0))
                    && increasing (col_ys (frame_window n)))
          (seq 0 (S (Z.to_nat MAX_DEPTH))) = true.
Proof. vm_compute. reflexivity. Qed.

Lemma frame_window_capped n :
  frame_window n = frame_window (Nat.min n (Z.to_nat MAX_DEPTH)).
Proof.
  destruct (Nat.le_gt_cases n (Z.to_nat MAX_DEPTH)) as [H|H].
  - rewrite Nat.min_l by exact H. reflexivity.
  - rewrite Nat.min_r by lia. apply frame_window_steady. lia.
Qed.

(** X12.  In every frame, at every zoom depth up to [MAX_DEPTH], the real
    coordinates of the 700 pixels of a row are finite and strictly
    increase from each pixel to its right neighbour, and the imaginary
    coordinates of the 700 rows are finite and strictly increase from each
    row to the next: in binary32 the zoom never maps two neighbouring
    pixels to the same point. *)
Theorem pixel_points_increase (n : nat) :
  increasing (row_xs (frame_window n)) = true /\
  increasing (col_ys (frame_window n)) = true /\
  length (row_xs (frame_window n)) = Z.to_nat X_RES /\
  length (col_ys (frame_window n)) = Z.to_nat Y_RES.
Proof.
  rewrite (frame_window_capped n).
  set (m := Nat.min n (Z.to_nat MAX_DEPTH)).
  assert (Hm : (m < S (Z.to_nat MAX_DEPTH))%nat) by (subst m; lia).
  pose proof (nat_range_forallb _ _ frames_increasing m Hm) as H.
  cbv beta in H. apply andb_prop in H. destruct H as [Hx Hy].
  rewrite xs_from_row in Hx. fold (row_xs (frame_window m)) in Hx.
  split; [exact Hx|]. split; [exact Hy|]. split.
  - unfold row_xs. rewrite <- xs_from_row. clear.
    generalize (row_x4 (frame_window m) 0).
    change (Z.to_nat X_RES) with (4 * Z.to_nat (X_RES / 4))%nat.
    induction (Z.to_nat (X_RES / 4)) as [|k IH]; intros x; [reflexivity|].
    cbn [xs_from lanes app length]. rewrite IH. lia.
  - unfold col_ys. rewrite length_map. apply length_seq.
Qed.

Lemma float_eqb_eq a b : float_eqb a b = true -> a = b.
Proof.
  destruct a as [s|s| |s m e], b as [t|t| |t n f]; cbn; try discriminate.
  - intros H. apply Bool.eqb_prop in H. congruence.
  - intros H. apply Bool.eqb_prop in H. congruence.
  - reflexivity.
  - intros H. apply andb_prop in H. destruct H as [H He].
    apply andb_prop in H. destruct H as [Hs Hm].
    apply Bool.eqb_prop in Hs. apply Pos.eqb_eq in Hm. apply Z.eqb_eq in He.
    congruence.
Qed.

Lemma frames_square_pixels :
  forallb (fun n => square_pixels (frame_window n))
          (seq 0 (S (Z.to_nat MAX_DEPTH))) = true.
Proof. vm_compute. reflexivity. Qed.

(** X13.  In every frame the two independently scaled steps stay in
    step: every lane of [delta_x4] (the step from one batch of four pixels
    to the next) is exactly four times [delta_y] (the step from one row to
    the next), and the first lane of [x_offset4] is exactly [y_offset].
    The 150 roundings of the zoom do not pull them apart. *)
Theorem zoom_keeps_pixels_square (n : nat) :
  delta_x4 (frame_window n) = _mm_set1_ps (mul four (delta_y (frame_window n))) /\
  v0 (x_offset4 (frame_window n)) = y_offset (frame_window n).
Proof.
  rewrite (frame_window_capped n).
  set (m := Nat.min n (Z.to_nat MAX_DEPTH)).
  assert (Hm : (m < S (Z.to_nat MAX_DEPTH))%nat) by (subst m; lia).
  pose proof (nat_range_forallb _ _ frames_square_pixels m Hm) as H.
  cbv beta in H. unfold square_pixels in H.
  apply andb_prop in H. destruct H as [Hd Ho].
  split; [|apply float_eqb_eq, Ho].
  destruct (delta_x4 (frame_window m)) as [a b c d].
  cbn [lanes v0 v1 v2 v3 forallb] in Hd.
  repeat (apply andb_prop in Hd; destruct Hd as [?H Hd]).
  unfold _mm_set1_ps. f_equal; apply float_eqb_eq; assumption.
Qed.

(** ** The frame loop *)

Lemma frame_loop_runs polls q :
  polls q = Some SDL_QUIT ->
  forall k frame fuel w,
    (frame + k = q)%nat -> (k < fuel)%nat ->
    (forall n, (frame <= n < q)%nat -> polls n <> Some SDL_QUIT) ->
    frame_loop fuel polls frame w
    = Some (map (fun i => Nat.iter i zoom_step w) (seq 0 (S k)),
            Nat.iter (S k) zoom_step w).
Proof.
  intros Hq. induction k as [|k IH]; intros frame fuel w Hk Hf Hno.
  - destruct fuel as [|fuel]; [lia|]. cbn [frame_loop].
    replace frame with q by lia. rewrite Hq. reflexivity.
  - destruct fuel as [|fuel]; [lia|]. cbn [frame_loop].
    assert (Hp : polls frame <> Some SDL_QUIT) by (apply Hno; lia).
    rewrite (IH (S frame) fuel (zoom_step w)) by
      (try lia; intros n Hn; apply Hno; lia).
    assert (Hshift : forall i, Nat.iter i zoom_step (zoom_step w)
                               = Nat.iter (S i) zoom_step w)
      by (intros i; symmetry; apply Nat.iter_succ_r).
    rewrite Hshift.
    rewrite (map_ext _ (fun i => Nat.iter (S i) zoom_step w)) by exact Hshift.
    rewrite <- (map_map S (fun i => Nat.iter i zoom_step w)), seq_shift.
    destruct (polls frame) as [[|]|]; [contradiction| |]; reflexivity.
Qed.

(** X14.  If the first poll that brings [SDL_QUIT] is the one at the end
    of frame [q], the frame loop renders exactly the [q + 1] frames
    [0 .. q], frame [k] with the window zoomed [min k MAX_DEPTH] times,
    and returns; the zoom step of the last frame is still made.  So at
    least one frame is always rendered, and an event of another type, or
    an empty queue, costs one more frame before the quit is seen. *)
Theorem frame_loop_until_quit polls q fuel :
  polls q = Some SDL_QUIT ->
  (forall n, (n < q)%nat -> polls n <> Some SDL_QUIT) ->
  (q < fuel)%nat ->
  frame_loop fuel polls 0 zoom_init
  = Some (map frame_window (seq 0 (S q)), frame_window (S q)) /\
  forall k, (k <= q)%nat ->
    depth (frame_window k) = Z.min (Z.of_nat k) MAX_DEPTH.
Proof.
  intros Hq Hno Hf. split.
  - apply (frame_loop_runs polls q Hq q 0 fuel zoom_init); try lia.
    intros n Hn. apply Hno. lia.
  - intros k _. apply frame_window_depth.
Qed.

Lemma frame_loop_until_quit_witness :
  sample_polls 3 = Some SDL_QUIT /\
  (forall n, (n < 3)%nat -> sample_polls n <> Some SDL_QUIT) /\
  (3 < 10)%nat /\
  frame_loop 10 sample_polls 0 zoom_init
  = Some (map frame_window (seq 0 4), frame_window 4) /\
  forall k, (k <= 3)%nat ->
    depth (frame_window k) = Z.min (Z.of_nat k) MAX_DEPTH.
Proof.
  assert (H1 : sample_polls 3 = Some SDL_QUIT) by reflexivity.
  assert (H2 : forall n, (n < 3)%nat -> sample_polls n <> Some SDL_QUIT).
  { intros [|[|[|n]]] Hn; try discriminate. lia. }
  assert (H3 : (3 < 10)%nat) by lia.
  refine (conj H1 (conj H2 (conj H3 _))).
  apply (frame_loop_until_quit sample_polls 3 10 H1 H2 H3).
Defined.

(** ** [member4] on the complex conjugate *)

Lemma binary_round_aux_opp p e s m ex l :
  binary_round_aux p e (negb s) m ex l = SFopp (binary_round_aux p e s m ex l).
Proof.
  unfold binary_round_aux.
  destruct (shr_fexp p e m ex l) as [mrs' e'].
  destruct (shr_fexp p e _ e' loc_Exact) as [mrs'' e''].
  destruct (shr_m mrs''); try reflexivity.
  destruct (e'' <=? e - p); reflexivity.
Qed.

Lemma binary_round_opp p e s m ex :
  binary_round p e (negb s) m ex = SFopp (binary_round p e s m ex).
Proof.
  unfold binary_round. destruct (shl_align m ex _) as [mz ez].
  apply binary_round_aux_opp.
Qed.

Lemma binary_normalize_opp p e z ex :
  z <> 0 ->
  binary_normalize p e (- z) ex false = SFopp (binary_normalize p e z ex false).
Proof.
  destruct z as [|q|q]; intros H; [contradiction| |]; cbn [Z.opp binary_normalize].
  - apply (binary_round_opp p e false).
  - apply (binary_round_opp p e true).
Qed.

Lemma mirrored_opp y : mirrored y (SFopp y).
Proof. left; reflexivity. Qed.

Lemma mul_opp_r x y : mul x (SFopp y) = SFopp (mul x y).
Proof.
  destruct x as [s|s| |s m e], y as [t|t| |t n f]; cbn; try reflexivity;
    try (destruct s, t; reflexivity).
  replace (xorb s (negb t)) with (negb (xorb s t)) by (destruct s, t; reflexivity).
  apply binary_round_aux_opp.
Qed.

Lemma mul_self_mirrored y y' : mirrored y y' -> mul y' y' = mul y y.
Proof.
  intros [-> | [Hy Hy']].
  - destruct y as [s|s| |s m e]; cbn; try reflexivity;
      destruct s; reflexivity.
  - destruct y as [s| | |]; try discriminate.
    destruct y' as [t| | |]; try discriminate.
    destruct s, t; reflexivity.
Qed.

Lemma mul_mirrored x y y' : mirrored y y' -> mirrored (mul x y) (mul x y').
Proof.
  intros [-> | [Hy Hy']].
  - left. apply mul_opp_r.
  - destruct y as [s| | |]; try discriminate.
    destruct y' as [t| | |]; try discriminate.
    destruct x as [u|u| |u m e]; cbn.
    + right; split; reflexivity.
    + left; reflexivity.
    + left; reflexivity.
    + right; split; reflexivity.
Qed.

(** Changing both signs changes the sign of the sum, unless the sum
    cancels to zero. *)
Lemma add_opp_opp a b : mirrored (add a b) (add (SFopp a) (SFopp b)).
Proof.
  destruct a as [s|s| |s m e], b as [t|t| |t n f]; cbn;
    try (left; reflexivity);
    try (destruct s, t; cbn; (left; reflexivity) || (right; split; reflexivity)).
  set (ez := Z.min e f).
  set (A := Z.pos (fst (shl_align m e ez))).
  set (B := Z.pos (fst (shl_align n f ez))).
  replace (cond_Zopp (negb s) A + cond_Zopp (negb t) B)
    with (- (cond_Zopp s A + cond_Zopp t B))
    by (destruct s, t; cbn [cond_Zopp negb]; lia).
  destruct (Z.eq_dec (cond_Zopp s A + cond_Zopp t B) 0) as [E|E].
  - rewrite E. right; split; reflexivity.
  - left. apply binary_normalize_opp, E.
Qed.

Lemma add_self_mirrored a a' : mirrored a a' -> mirrored (add a a) (add a' a').
Proof.
  intros [-> | [Ha Ha']].
  - apply add_opp_opp.
  - destruct a as [s| | |]; try discriminate.
    destruct a' as [t| | |]; try discriminate.
    right. destruct s, t; split; reflexivity.
Qed.

Lemma add_mirrored t t' c :
  mirrored t t' -> mirrored (add t c) (add t' (SFopp c)).
Proof.
  intros [-> | [Ht Ht']].
  - apply add_opp_opp.
  - destruct t as [s| | |]; try discriminate.
    destruct t' as [u| | |]; try discriminate.
    destruct c as [v|v| |v m e]; cbn.
    + right. destruct s, u, v; split; reflexivity.
    + left; reflexivity.
    + left; reflexivity.
    + left; reflexivity.
Qed.

(** Mirrored points have the same count. *)
Lemma lane_count_mirrored b cx cy :
  forall x y y' n,
    mirrored y y' ->
    lane_count b cx (SFopp cy) x y' n = lane_count b cx cy x y n.
Proof.
  induction b as [|b IH]; intros x y y' n Hm; cbn [lane_count]; [reflexivity|].
  unfold below, next_x. rewrite (mul_self_mirrored y y' Hm).
  destruct (ltb (add (mul x x) (mul y y)) four); [|reflexivity].
  apply IH. unfold next_y.
  apply add_mirrored, add_self_mirrored, mul_mirrored, Hm.
Qed.

(** X15.  [member4] returns the same counts for a batch and for its
    complex conjugate (every imaginary part negated), whatever the
    coordinates: in binary32 the evaluator is exactly symmetric about the
    real axis. *)
Theorem member4_conjugate cx4 cy4 :
  member4 cx4 (vmap SFopp cy4) = member4 cx4 cy4 /\
  exists r, member4 cx4 cy4 = Some r.
Proof.
  rewrite !member4_counts. split; [|eexists; reflexivity].
  apply (f_equal (@Some __m128i)), vec_ext.
  intros l. rewrite !get_lane_counts.
  destruct l; cbn [get vmap v0 v1 v2 v3];
    apply lane_count_mirrored, mirrored_opp.
Qed.

Example member4_conjugate_sample :
  member4 sample_cx4 (vmap SFopp sample_cy4) = Some (Vec 500 500 32 500).
Proof. vm_compute. reflexivity. Qed.

(** ** [member4] on coordinates that are not finite *)

Lemma below_not_finite x y :
  finite x = false \/ finite y = false -> below x y = false.
Proof.
  intros H. unfold below. rewrite four_eq.
  assert (Hsq : forall z, is_nan (mul z z) = true \/ signed_num false (mul z z)).
  { intros z. destruct (is_nan z) eqn:E.
    - left. destruct z; try discriminate. reflexivity.
    - right. apply mul_self_signed, E. }
  assert (Hinf : forall z, finite z = false ->
                   mul z z = S754_nan \/ mul z z = S754_infinity false).
  { intros z Hz. destruct z as [s|s| |s m e]; try discriminate.
    - right. destruct s; reflexivity.
    - left. reflexivity. }
  destruct H as [H|H]; destruct (Hinf _ H) as [E|E]; rewrite E.
  - reflexivity.
  - destruct (Hsq y) as [N|S].
    + destruct (mul y y); try discriminate. reflexivity.
    + destruct (mul y y) as [s|s| |s m e]; cbn in S; subst;
        try contradiction; reflexivity.
  - destruct (mul x x); reflexivity.
  - destruct (Hsq x) as [N|S].
    + destruct (mul x x); try discriminate. reflexivity.
    + destruct (mul x x) as [s|s| |s m e]; cbn in S; subst;
        try contradiction; reflexivity.
Qed.

(** X16.  A lane whose point has a NaN or an infinite coordinate gets the
    count 0, whatever the other lanes hold: the first test already fails
    for it, so the renderer gives it palette index 1 like any point outside
    the limit. *)
Theorem member4_not_finite cx4 cy4 l :
  finite (get cx4 l) = false \/ finite (get cy4 l) = false ->
  exists r,
    member4 cx4 cy4 = Some r /\
    signed32 (get r l) = 0 /\
    color_index (color_index4 r) l = 1.
Proof.
  intros H. exists (lane_counts MAX_ITS cx4 cy4).
  split; [apply member4_counts|].
  assert (E : get (lane_counts MAX_ITS cx4 cy4) l = 0).
  { rewrite get_lane_counts. apply lane_count_stop, below_not_finite, H. }
  split.
  - rewrite E. reflexivity.
  - rewrite color_index_spec by (rewrite E; unfold MAX_ITS; lia).
    rewrite E. reflexivity.
Qed.

Lemma member4_not_finite_witness :
  (finite (get (_mm_setr_ps S754_nan zero (S754_infinity true) zero) L2) = false \/
   finite (get (_mm_set1_ps zero) L2) = false) /\
  exists r,
    member4 (_mm_setr_ps S754_nan zero (S754_infinity true) zero)
            (_mm_set1_ps zero) = Some r /\
    signed32 (get r L2) = 0 /\
    color_index (color_index4 r) L2 = 1.
Proof.
  assert (H : finite (get (_mm_setr_ps S754_nan zero (S754_infinity true) zero) L2)
              = false \/
              finite (get (_mm_set1_ps zero) L2) = false)
    by (left; reflexivity).
  split; [exact H|].
  apply (member4_not_finite (_mm_setr_ps S754_nan zero (S754_infinity true) zero)
           (_mm_set1_ps zero) L2 H).
Defined.
